(** * Dynamic Data Table Manager: the query-and-mutation core

    A shallow embedding of the table slice ([tableSlice.ts]), of the query
    helpers of the table manager component ([filterRows], [pagedRows]), of the
    export projector ([getExportData]) and of the bulk-action handlers
    ([handleBulkDelete], [handleBulkDuplicate]), with the properties of the
    specification stated over them.

    Reducers are pure functions on [TableState]: Redux Toolkit runs every
    reducer on a draft and publishes the result as one new immutable state, so
    the in-place updates of the source read as functional updates here.  Reads
    of the host environment (the clock behind [Date.now()] and
    [new Date().toISOString()], the random source behind [uuidv4()]) are passed
    in as arguments. *)

From Stdlib Require Import ZArith Ascii DecimalString.
From stdpp Require Import gmap strings list sorting.

Local Open Scope Z_scope.

(** ** The JavaScript primitives the source relies on *)

Module JS.

(** *** Numbers

    A number is [NaN], an infinity, or a finite value [m * 10^e].  Finite
    values are kept exactly: the rounding of a decimal literal to the nearest
    double, and the overflow of large ones to an infinity, are not modelled.
    The sign of zero is not kept either; it is invisible to [String],
    to truthiness and to the relational operators, the only observers used
    by the source. *)

Inductive number : Type :=
| NaN
| Infinity (negative : bool)
| Finite (m e : Z).

Definition number_eq_dec : EqDecision number.
Proof. solve_decision. Defined.
#[global] Existing Instance number_eq_dec.

Definition of_Z (z : Z) : number := Finite z 0.

(** [m * 10^e] brought to the exponent [e0 <= e]. *)
Definition scale (m e e0 : Z) : Z := m * 10 ^ (e - e0).

Definition compare_finite (m1 e1 m2 e2 : Z) : comparison :=
  let e0 := Z.min e1 e2 in
  scale m1 e1 e0 ?= scale m2 e2 e0.

(** The abstract operation IsLessThan on numbers: [None] is the language's
    [undefined], the answer as soon as an operand is [NaN]. *)
Definition IsLessThan (x y : number) : option bool :=
  match x, y with
  | NaN, _ | _, NaN => None
  | Infinity nx, Infinity ny => Some (nx && negb ny)
  | Infinity nx, Finite _ _ => Some nx
  | Finite _ _, Infinity ny => Some (negb ny)
  | Finite m1 e1, Finite m2 e2 =>
      Some (match compare_finite m1 e1 m2 e2 with Lt => true | _ => false end)
  end.

(** [x < y], [x > y], [x <= y], [x >= y] as the language defines them
    from IsLessThan. *)
Definition lt (x y : number) : bool :=
  match IsLessThan x y with Some b => b | None => false end.
Definition gt (x y : number) : bool :=
  match IsLessThan y x with Some b => b | None => false end.
Definition le (x y : number) : bool :=
  match IsLessThan y x with Some b => negb b | None => false end.
Definition ge (x y : number) : bool :=
  match IsLessThan x y with Some b => negb b | None => false end.

Definition is_zero (x : number) : bool :=
  match x with Finite m _ => m =? 0 | _ => false end.

(** *** Strings

    Strings are sequences of 8-bit code units; case mapping and white space
    are those of the ASCII range. *)

Definition is_whitespace (c : ascii) : bool :=
  match N_of_ascii c with
  | 9%N | 10%N | 11%N | 12%N | 13%N | 32%N => true
  | _ => false
  end.

Definition lower_char (c : ascii) : ascii :=
  let n := N_of_ascii c in
  if ((65 <=? n) && (n <=? 90))%N then ascii_of_N (n + 32) else c.

Fixpoint toLowerCase (s : string) : string :=
  match s with
  | EmptyString => EmptyString
  | String c s' => String (lower_char c) (toLowerCase s')
  end.

Fixpoint trimStart (s : string) : string :=
  match s with
  | EmptyString => EmptyString
  | String c s' => if is_whitespace c then trimStart s' else s
  end.

Definition trimEnd (s : string) : string :=
  String.rev (trimStart (String.rev s)).

Definition trim (s : string) : string := trimEnd (trimStart s).

Definition startsWith (s search : string) : bool := String.prefix search s.

Fixpoint includes (s search : string) : bool :=
  startsWith s search ||
  match s with
  | EmptyString => false
  | String _ s' => includes s' search
  end.

Definition endsWith (s search : string) : bool :=
  startsWith (String.rev s) (String.rev search).

(** [xs.includes(x)] on an array of strings. *)
Definition array_includes (xs : list string) (x : string) : bool :=
  existsb (String.eqb x) xs.

(** *** Number to string (Number::toString, radix 10) *)

Definition digits (n : Z) : string :=
  NilZero.string_of_uint (N.to_uint (Z.to_N n)).

Fixpoint zeros (n : nat) : string :=
  match n with O => EmptyString | S n' => String "0" (zeros n') end.

Definition strip_trailing_zeros (s : string) : string :=
  let fix drop (r : string) : string :=
    match r with
    | String "0" r' => drop r'
    | _ => r
    end in
  String.rev (drop (String.rev s)).

(** With [s] the significant digits, [k] their count and [n] the position of
    the decimal point, the four layouts of the language: integer, fraction,
    small fraction, exponent. *)
Definition number_to_string (x : number) : string :=
  match x with
  | NaN => "NaN"
  | Infinity false => "Infinity"
  | Infinity true => "-Infinity"
  | Finite m e =>
      if m =? 0 then "0" else
      let all := digits (Z.abs m) in
      let s := strip_trailing_zeros all in
      let k := Z.of_nat (String.length s) in
      let n := Z.of_nat (String.length all) + e in
      let body :=
        if (k <=? n) && (n <=? 21) then s +:+ zeros (Z.to_nat (n - k))
        else if (0 <? n) && (n <=? 21) then
          String.substring 0 (Z.to_nat n) s +:+ "." +:+
          String.substring (Z.to_nat n) (Z.to_nat (k - n)) s
        else if (-6 <? n) && (n <=? 0) then
          "0." +:+ zeros (Z.to_nat (- n)) +:+ s
        else
          let ex := n - 1 in
          let sign := if ex <? 0 then "-" else "+" in
          let mant :=
            if k =? 1 then s
            else String.substring 0 1 s +:+ "." +:+
                 String.substring 1 (Z.to_nat (k - 1)) s in
          mant +:+ "e" +:+ sign +:+ digits (Z.abs ex) in
      if m <? 0 then "-" +:+ body else body
  end.

(** *** String to number (StringToNumber) *)

Definition digit_of (radix : Z) (c : ascii) : option Z :=
  let n := Z.of_N (N_of_ascii c) in
  let v :=
    if (48 <=? n) && (n <=? 57) then Some (n - 48)
    else if (97 <=? n) && (n <=? 102) then Some (n - 87)
    else if (65 <=? n) && (n <=? 70) then Some (n - 55)
    else None in
  match v with
  | Some d => if d <? radix then Some d else None
  | None => None
  end.

(** Reads the longest run of digits at the head of [s], continuing the value
    [acc]: the value, the number of digits read, the rest of the string. *)
Fixpoint read_digits (radix : Z) (s : string) (acc : Z) (count : Z)
  : Z * Z * string :=
  match s with
  | EmptyString => (acc, count, s)
  | String c s' =>
      match digit_of radix c with
      | Some d => read_digits radix s' (acc * radix + d) (count + 1)
      | None => (acc, count, s)
      end
  end.

Definition is_exponent_indicator (c : ascii) : bool :=
  (Ascii.eqb c "e" || Ascii.eqb c "E")%char.

(** StrUnsignedDecimalLiteral: [Infinity], or digits with an optional
    fraction and an optional exponent, at least one digit before or after the
    point, and nothing left over. *)
Definition StrUnsignedDecimalLiteral (s : string) : number :=
  if String.eqb s "Infinity" then Infinity false else
  let '(i, ni, r1) := read_digits 10 s 0 0 in
  let '(f, nf, r2) :=
    match r1 with
    | String "." r => read_digits 10 r i 0
    | _ => (i, 0, r1)
    end in
  if ni + nf =? 0 then NaN else
  match r2 with
  | EmptyString => Finite f (- nf)
  | String c r3 =>
      if is_exponent_indicator c then
        let '(sgn, r4) :=
          match r3 with
          | String "+" r => (1, r)
          | String "-" r => (-1, r)
          | _ => (1, r3)
          end in
        let '(x, nx, r5) := read_digits 10 r4 0 0 in
        if (nx =? 0) || negb (String.eqb r5 "") then NaN
        else Finite f (sgn * x - nf)
      else NaN
  end.

Definition negate (x : number) : number :=
  match x with
  | NaN => NaN
  | Infinity b => Infinity (negb b)
  | Finite m e => Finite (- m) e
  end.

(** NonDecimalIntegerLiteral: [0x], [0o], [0b] and digits of that radix. *)
Definition NonDecimalIntegerLiteral (radix : Z) (s : string) : number :=
  let '(v, n, r) := read_digits radix s 0 0 in
  if (n =? 0) || negb (String.eqb r "") then NaN else Finite v 0.

Definition StringToNumber (s : string) : number :=
  match trim s with
  | EmptyString => Finite 0 0
  | String "0" (String "x" r) | String "0" (String "X" r) =>
      NonDecimalIntegerLiteral 16 r
  | String "0" (String "o" r) | String "0" (String "O" r) =>
      NonDecimalIntegerLiteral 8 r
  | String "0" (String "b" r) | String "0" (String "B" r) =>
      NonDecimalIntegerLiteral 2 r
  | String "+" r => StrUnsignedDecimalLiteral r
  | String "-" r => negate (StrUnsignedDecimalLiteral r)
  | t => StrUnsignedDecimalLiteral t
  end.

(** *** Values

    The values a row field can hold:
    [string | number | boolean | null | undefined]. *)

Inductive value : Type :=
| Undefined
| Null
| Bool (b : bool)
| Num (n : number)
| Str (s : string).

Definition value_eq_dec : EqDecision value.
Proof. solve_decision. Defined.
#[global] Existing Instance value_eq_dec.

(** [String(v)], also the conversion of a template literal. *)
Definition ToString (v : value) : string :=
  match v with
  | Undefined => "undefined"
  | Null => "null"
  | Bool true => "true"
  | Bool false => "false"
  | Num n => number_to_string n
  | Str s => s
  end.

(** [Number(v)]. *)
Definition ToNumber (v : value) : number :=
  match v with
  | Undefined => NaN
  | Null => Finite 0 0
  | Bool true => Finite 1 0
  | Bool false => Finite 0 0
  | Num n => n
  | Str s => StringToNumber s
  end.

(** Truthiness: what [!v], [v && w] and a callback's result come down to. *)
Definition ToBoolean (v : value) : bool :=
  match v with
  | Undefined | Null => false
  | Bool b => b
  | Num NaN => false
  | Num n => negb (is_zero n)
  | Str s => negb (String.eqb s "")
  end.

(** [v ?? d]. *)
Definition nullish (v d : value) : value :=
  match v with
  | Undefined | Null => d
  | _ => v
  end.

End JS.

(** ** The data model of [tableSlice.ts] *)

Inductive ColumnType : Type := TText | TNumber | TDate | TEmail | TSelect.

Record Validation : Type := {
  required : option bool;
  vmin : option JS.number;
  vmax : option JS.number;
  pattern : option string;
  custom : option string;
}.

Record TableColumn : Type := {
  col_id : string;
  col_label : string;
  col_visible : bool;
  col_editable : option bool;
  col_type : option ColumnType;
  col_options : option (list string);
  col_validation : option Validation;
}.

(** A row is an object with a string [id] and an open set of other fields. *)
Record TableRow : Type := {
  row_id : string;
  row_fields : gmap string JS.value;
}.

(** [row[key]]: the identity under ["id"], the field otherwise, [undefined]
    when the row has no such field. *)
Definition get (row : TableRow) (key : string) : JS.value :=
  if String.eqb key "id" then JS.Str (row_id row)
  else default JS.Undefined (row_fields row !! key).

(** [Partial<TableRow>], and the spread [{ ...row, ...changes }]. *)
Record PartialRow : Type := {
  part_id : option string;
  part_fields : gmap string JS.value;
}.

Definition spread (row : TableRow) (changes : PartialRow) : TableRow :=
  {| row_id := default (row_id row) (part_id changes);
     row_fields := part_fields changes ∪ row_fields row |}.

Inductive FilterOperator : Type :=
| equals | contains | startsWith | endsWith
| greaterThan | lessThan | between | isEmpty | isNotEmpty.

Record ColumnFilter : Type := {
  f_column : string;
  f_operator : FilterOperator;
  f_value : JS.value;
  f_value2 : option JS.value;
}.

Inductive Direction : Type := asc | desc.

Record Sort : Type := {
  sort_column : string;
  sort_direction : Direction;
}.

Inductive ActionKind : Type := Create | Update | Delete | Import | Export.

Record ActivityLog : Type := {
  log_id : string;
  log_timestamp : string;
  log_action : ActionKind;
  log_rowId : option string;
  log_details : string;
  log_user : string;
}.

(** The payload of [logActivity]: an entry without id, timestamp and user. *)
Record ActivityPayload : Type := {
  pl_action : ActionKind;
  pl_rowId : option string;
  pl_details : string;
}.

Record SavedView : Type := {
  view_id : string;
  view_name : string;
  view_columns : list TableColumn;
  view_filters : list ColumnFilter;
  view_sort : option Sort;
  view_search : string;
  view_timestamp : string;
}.

(** The payload of [saveView]: a view without id and timestamp. *)
Record ViewPayload : Type := {
  vp_name : string;
  vp_columns : list TableColumn;
  vp_filters : list ColumnFilter;
  vp_sort : option Sort;
  vp_search : string;
}.

Record TableState : Type := {
  columns : list TableColumn;
  rows : list TableRow;
  search : string;
  sort : option Sort;
  page : Z;
  pageSize : Z;
  editingRows : list string;
  selectedRows : list string;
  filters : list ColumnFilter;
  activityLog : list ActivityLog;
  savedViews : list SavedView;
  validationErrors : gmap string (gmap string string);
  showAnalytics : bool;
}.

Definition initialColumns : list TableColumn :=
  [ {| col_id := "name"; col_label := "Name"; col_visible := true;
       col_editable := Some true; col_type := Some TText; col_options := None;
       col_validation := Some {| required := Some true; vmin := None;
                                 vmax := None; pattern := None;
                                 custom := None |} |};
    {| col_id := "email"; col_label := "Email"; col_visible := true;
       col_editable := Some true; col_type := Some TEmail;
       col_options := None;
       col_validation :=
         Some {| required := Some true; vmin := None; vmax := None;
                 pattern := Some "^[\w-\.]+@([\w-]+\.)+[\w-]{2,4}$";
                 custom := None |} |};
    {| col_id := "age"; col_label := "Age"; col_visible := true;
       col_editable := Some true; col_type := Some TNumber;
       col_options := None;
       col_validation :=
         Some {| required := None; vmin := Some (JS.of_Z 18);
                 vmax := Some (JS.of_Z 100); pattern := None;
                 custom := None |} |};
    {| col_id := "role"; col_label := "Role"; col_visible := true;
       col_editable := Some true; col_type := Some TSelect;
       col_options := Some ["Admin"; "User"; "Manager"; "Developer"];
       col_validation := Some {| required := Some true; vmin := None;
                                 vmax := None; pattern := None;
                                 custom := None |} |} ].

Definition initialState : TableState :=
  {| columns := initialColumns; rows := []; search := ""; sort := None;
     page := 0; pageSize := 10; editingRows := []; selectedRows := [];
     filters := []; activityLog := []; savedViews := [];
     validationErrors := ∅; showAnalytics := false |}.

(** Field updates of the state, one per field the reducers assign. *)
Definition with_columns (v : list TableColumn) (s : TableState) : TableState :=
  {| columns := v; rows := rows s; search := search s; sort := sort s;
     page := page s; pageSize := pageSize s; editingRows := editingRows s;
     selectedRows := selectedRows s; filters := filters s;
     activityLog := activityLog s; savedViews := savedViews s;
     validationErrors := validationErrors s;
     showAnalytics := showAnalytics s |}.

Definition with_rows (v : list TableRow) (s : TableState) : TableState :=
  {| columns := columns s; rows := v; search := search s; sort := sort s;
     page := page s; pageSize := pageSize s; editingRows := editingRows s;
     selectedRows := selectedRows s; filters := filters s;
     activityLog := activityLog s; savedViews := savedViews s;
     validationErrors := validationErrors s;
     showAnalytics := showAnalytics s |}.

Definition with_search (v : string) (s : TableState) : TableState :=
  {| columns := columns s; rows := rows s; search := v; sort := sort s;
     page := page s; pageSize := pageSize s; editingRows := editingRows s;
     selectedRows := selectedRows s; filters := filters s;
     activityLog := activityLog s; savedViews := savedViews s;
     validationErrors := validationErrors s;
     showAnalytics := showAnalytics s |}.

Definition with_sort (v : option Sort) (s : TableState) : TableState :=
  {| columns := columns s; rows := rows s; search := search s; sort := v;
     page := page s; pageSize := pageSize s; editingRows := editingRows s;
     selectedRows := selectedRows s; filters := filters s;
     activityLog := activityLog s; savedViews := savedViews s;
     validationErrors := validationErrors s;
     showAnalytics := showAnalytics s |}.

Definition with_page (v : Z) (s : TableState) : TableState :=
  {| columns := columns s; rows := rows s; search := search s; sort := sort s;
     page := v; pageSize := pageSize s; editingRows := editingRows s;
     selectedRows := selectedRows s; filters := filters s;
     activityLog := activityLog s; savedViews := savedViews s;
     validationErrors := validationErrors s;
     showAnalytics := showAnalytics s |}.

Definition with_pageSize (v : Z) (s : TableState) : TableState :=
  {| columns := columns s; rows := rows s; search := search s; sort := sort s;
     page := page s; pageSize := v; editingRows := editingRows s;
     selectedRows := selectedRows s; filters := filters s;
     activityLog := activityLog s; savedViews := savedViews s;
     validationErrors := validationErrors s;
     showAnalytics := showAnalytics s |}.

Definition with_editingRows (v : list string) (s : TableState) : TableState :=
  {| columns := columns s; rows := rows s; search := search s; sort := sort s;
     page := page s; pageSize := pageSize s; editingRows := v;
     selectedRows := selectedRows s; filters := filters s;
     activityLog := activityLog s; savedViews := savedViews s;
     validationErrors := validationErrors s;
     showAnalytics := showAnalytics s |}.

Definition with_selectedRows (v : list string) (s : TableState) : TableState :=
  {| columns := columns s; rows := rows s; search := search s; sort := sort s;
     page := page s; pageSize := pageSize s; editingRows := editingRows s;
     selectedRows := v; filters := filters s;
     activityLog := activityLog s; savedViews := savedViews s;
     validationErrors := validationErrors s;
     showAnalytics := showAnalytics s |}.

Definition with_filters (v : list ColumnFilter) (s : TableState) : TableState :=
  {| columns := columns s; rows := rows s; search := search s; sort := sort s;
     page := page s; pageSize := pageSize s; editingRows := editingRows s;
     selectedRows := selectedRows s; filters := v;
     activityLog := activityLog s; savedViews := savedViews s;
     validationErrors := validationErrors s;
     showAnalytics := showAnalytics s |}.

Definition with_activityLog (v : list ActivityLog) (s : TableState)
  : TableState :=
  {| columns := columns s; rows := rows s; search := search s; sort := sort s;
     page := page s; pageSize := pageSize s; editingRows := editingRows s;
     selectedRows := selectedRows s; filters := filters s;
     activityLog := v; savedViews := savedViews s;
     validationErrors := validationErrors s;
     showAnalytics := showAnalytics s |}.

Definition with_savedViews (v : list SavedView) (s : TableState) : TableState :=
  {| columns := columns s; rows := rows s; search := search s; sort := sort s;
     page := page s; pageSize := pageSize s; editingRows := editingRows s;
     selectedRows := selectedRows s; filters := filters s;
     activityLog := activityLog s; savedViews := v;
     validationErrors := validationErrors s;
     showAnalytics := showAnalytics s |}.

Definition with_validationErrors (v : gmap string (gmap string string))
  (s : TableState) : TableState :=
  {| columns := columns s; rows := rows s; search := search s; sort := sort s;
     page := page s; pageSize := pageSize s; editingRows := editingRows s;
     selectedRows := selectedRows s; filters := filters s;
     activityLog := activityLog s; savedViews := savedViews s;
     validationErrors := v;
     showAnalytics := showAnalytics s |}.

Definition with_showAnalytics (v : bool) (s : TableState) : TableState :=
  {| columns := columns s; rows := rows s; search := search s; sort := sort s;
     page := page s; pageSize := pageSize s; editingRows := editingRows s;
     selectedRows := selectedRows s; filters := filters s;
     activityLog := activityLog s; savedViews := savedViews s;
     validationErrors := validationErrors s;
     showAnalytics := v |}.

(** ** The reducers of the slice *)

(** One reading of the host clock: the milliseconds [Date.now()] returns and
    the text [new Date().toISOString()] returns. *)
Record Clock : Type := {
  now : Z;
  iso : string;
}.

(** [Date.now().toString()]. *)
Definition now_toString (c : Clock) : string :=
  NilZero.string_of_int (Z.to_int (now c)).

Definition setColumns (payload : list TableColumn) (state : TableState)
  : TableState := with_columns payload state.

Definition setRows (payload : list TableRow) (state : TableState)
  : TableState := with_rows payload state.

Definition addRow (payload : TableRow) (state : TableState) : TableState :=
  with_rows (rows state ++ [payload]) state.

(** The row at the first index whose id matches is replaced by the spread;
    nothing happens when [findIndex] finds none. *)
Fixpoint update_first (id : string) (changes : PartialRow)
  (rs : list TableRow) : list TableRow :=
  match rs with
  | [] => []
  | r :: rs' =>
      if String.eqb (row_id r) id then spread r changes :: rs'
      else r :: update_first id changes rs'
  end.

Definition updateRow (id : string) (changes : PartialRow)
  (state : TableState) : TableState :=
  with_rows (update_first id changes (rows state)) state.

Definition deleteRow (payload : string) (state : TableState) : TableState :=
  with_rows
    (List.filter (fun r => negb (String.eqb (row_id r) payload)) (rows state))
    state.

Definition setSearch (payload : string) (state : TableState) : TableState :=
  with_search payload state.

Definition setSort (payload : option Sort) (state : TableState) : TableState :=
  with_sort payload state.

Definition setPage (payload : Z) (state : TableState) : TableState :=
  with_page payload state.

Definition setPageSize (payload : Z) (state : TableState) : TableState :=
  with_pageSize payload state.

Definition setEditingRows (payload : list string) (state : TableState)
  : TableState := with_editingRows payload state.

Definition setSelectedRows (payload : list string) (state : TableState)
  : TableState := with_selectedRows payload state.

Definition toggleRowSelection (rowId : string) (state : TableState)
  : TableState :=
  if JS.array_includes (selectedRows state) rowId then
    with_selectedRows
      (List.filter (fun id => negb (String.eqb id rowId)) (selectedRows state))
      state
  else
    with_selectedRows (selectedRows state ++ [rowId]) state.

Definition setFilters (payload : list ColumnFilter) (state : TableState)
  : TableState := with_filters payload state.

Definition addFilter (payload : ColumnFilter) (state : TableState)
  : TableState := with_filters (filters state ++ [payload]) state.

(** [xs.splice(start, 1)]: a negative [start] counts from the end, and
    nothing is removed at or past the end. *)
Definition splice1 {A : Type} (start : Z) (xs : list A) : list A :=
  let len := Z.of_nat (length xs) in
  let from := if start <? 0 then Z.max (len + start) 0 else Z.min start len in
  take (Z.to_nat from) xs ++ drop (S (Z.to_nat from)) xs.

Definition removeFilter (payload : Z) (state : TableState) : TableState :=
  with_filters (splice1 payload (filters state)) state.

(** [unshift] puts the new entry first; past 1000 entries [slice(0, 1000)]
    keeps the first thousand. *)
Definition new_log (clock : Clock) (payload : ActivityPayload) : ActivityLog :=
  {| log_id := now_toString clock;
     log_timestamp := iso clock;
     log_user := "Current User";
     log_action := pl_action payload;
     log_rowId := pl_rowId payload;
     log_details := pl_details payload |}.

Definition logActivity (clock : Clock) (payload : ActivityPayload)
  (state : TableState) : TableState :=
  let log := new_log clock payload in
  let unshifted := log :: activityLog state in
  if (1000 <? Z.of_nat (length unshifted)) then
    with_activityLog (take 1000 unshifted) state
  else
    with_activityLog unshifted state.

Definition new_view (clock : Clock) (payload : ViewPayload) : SavedView :=
  {| view_id := now_toString clock;
     view_timestamp := iso clock;
     view_name := vp_name payload;
     view_columns := vp_columns payload;
     view_filters := vp_filters payload;
     view_sort := vp_sort payload;
     view_search := vp_search payload |}.

Definition saveView (clock : Clock) (payload : ViewPayload)
  (state : TableState) : TableState :=
  let view := new_view clock payload in
  with_savedViews (savedViews state ++ [view]) state.

Definition loadView (payload : string) (state : TableState) : TableState :=
  match List.find (fun v => String.eqb (view_id v) payload) (savedViews state)
  with
  | Some view =>
      with_page 0
        (with_search (view_search view)
          (with_sort (view_sort view)
            (with_filters (view_filters view)
              (with_columns (view_columns view) state))))
  | None => state
  end.

Definition deleteSavedView (payload : string) (state : TableState)
  : TableState :=
  with_savedViews
    (List.filter (fun v => negb (String.eqb (view_id v) payload))
       (savedViews state))
    state.

Definition setValidationErrors (payload : gmap string (gmap string string))
  (state : TableState) : TableState := with_validationErrors payload state.

Definition clearValidationErrors (payload : string) (state : TableState)
  : TableState :=
  with_validationErrors (delete payload (validationErrors state)) state.

Definition toggleAnalytics (state : TableState) : TableState :=
  with_showAnalytics (negb (showAnalytics state)) state.

Definition bulkDeleteRows (payload : list string) (state : TableState)
  : TableState :=
  with_selectedRows []
    (with_rows
       (List.filter (fun row => negb (JS.array_includes payload (row_id row)))
          (rows state))
       state).

Definition bulkUpdateRows (ids : list string) (updates : PartialRow)
  (state : TableState) : TableState :=
  with_selectedRows []
    (with_rows
       (List.map
          (fun row =>
             if JS.array_includes ids (row_id row) then spread row updates
             else row)
          (rows state))
       state).

(** The actions of the slice, and the store's reducer. *)
Inductive Action : Type :=
| SetColumns (payload : list TableColumn)
| SetRows (payload : list TableRow)
| AddRow (payload : TableRow)
| UpdateRow (id : string) (changes : PartialRow)
| DeleteRow (payload : string)
| SetSearch (payload : string)
| SetSort (payload : option Sort)
| SetPage (payload : Z)
| SetPageSize (payload : Z)
| SetEditingRows (payload : list string)
| SetSelectedRows (payload : list string)
| ToggleRowSelection (payload : string)
| SetFilters (payload : list ColumnFilter)
| AddFilter (payload : ColumnFilter)
| RemoveFilter (payload : Z)
| LogActivity (payload : ActivityPayload)
| SaveView (payload : ViewPayload)
| LoadView (payload : string)
| DeleteSavedView (payload : string)
| SetValidationErrors (payload : gmap string (gmap string string))
| ClearValidationErrors (payload : string)
| ToggleAnalytics
| BulkDeleteRows (payload : list string)
| BulkUpdateRows (ids : list string) (updates : PartialRow).

Definition reducer (clock : Clock) (action : Action) (state : TableState)
  : TableState :=
  match action with
  | SetColumns p => setColumns p state
  | SetRows p => setRows p state
  | AddRow p => addRow p state
  | UpdateRow id changes => updateRow id changes state
  | DeleteRow p => deleteRow p state
  | SetSearch p => setSearch p state
  | SetSort p => setSort p state
  | SetPage p => setPage p state
  | SetPageSize p => setPageSize p state
  | SetEditingRows p => setEditingRows p state
  | SetSelectedRows p => setSelectedRows p state
  | ToggleRowSelection p => toggleRowSelection p state
  | SetFilters p => setFilters p state
  | AddFilter p => addFilter p state
  | RemoveFilter p => removeFilter p state
  | LogActivity p => logActivity clock p state
  | SaveView p => saveView clock p state
  | LoadView p => loadView p state
  | DeleteSavedView p => deleteSavedView p state
  | SetValidationErrors p => setValidationErrors p state
  | ClearValidationErrors p => clearValidationErrors p state
  | ToggleAnalytics => toggleAnalytics state
  | BulkDeleteRows p => bulkDeleteRows p state
  | BulkUpdateRows ids updates => bulkUpdateRows ids updates state
  end.

(** A handler dispatches actions one after the other; each dispatch runs the
    reducer to completion, at its own reading of the clock, and publishes one
    state.  [trace] lists the states published, [run] gives the last. *)
Fixpoint trace (ds : list (Clock * Action)) (state : TableState)
  : list TableState :=
  match ds with
  | [] => []
  | (c, a) :: ds' => reducer c a state :: trace ds' (reducer c a state)
  end.

Definition run (ds : list (Clock * Action)) (state : TableState)
  : TableState :=
  fold_left (fun s '(c, a) => reducer c a s) ds state.

(** [xs.slice(start, end)]: negative bounds count from the end, both are
    clamped to the array, and an empty window gives the empty array. *)
Definition slice {A : Type} (start stop : Z) (xs : list A) : list A :=
  let len := Z.of_nat (length xs) in
  let k := if start <? 0 then Z.max (len + start) 0 else Z.min start len in
  let final := if stop <? 0 then Z.max (len + stop) 0 else Z.min stop len in
  take (Z.to_nat (final - k)) (drop (Z.to_nat k) xs).

(** ** The query helpers of the table manager component *)

Module TableManager.

(** The callback of the search stage, [lower] being the lower-cased text. *)
Definition search_matches (columns : list TableColumn) (lower : string)
  (row : TableRow) : bool :=
  existsb
    (fun col =>
       col_visible col &&
       JS.includes
         (JS.toLowerCase
            (JS.ToString (JS.nullish (get row (col_id col)) (JS.Str ""))))
         lower)
    columns.

(** The callback of [filters.every]: the [switch] on the operator.  The
    result of [isNotEmpty], [value && ...], is read for its truthiness. *)
Definition filter_passes (row : TableRow) (filter : ColumnFilter) : bool :=
  let value := get row (f_column filter) in
  let filterValue := f_value filter in
  match f_operator filter with
  | equals =>
      String.eqb (JS.toLowerCase (JS.ToString value))
                 (JS.toLowerCase (JS.ToString filterValue))
  | contains =>
      JS.includes (JS.toLowerCase (JS.ToString value))
                  (JS.toLowerCase (JS.ToString filterValue))
  | startsWith =>
      JS.startsWith (JS.toLowerCase (JS.ToString value))
                    (JS.toLowerCase (JS.ToString filterValue))
  | endsWith =>
      JS.endsWith (JS.toLowerCase (JS.ToString value))
                  (JS.toLowerCase (JS.ToString filterValue))
  | greaterThan => JS.gt (JS.ToNumber value) (JS.ToNumber filterValue)
  | lessThan => JS.lt (JS.ToNumber value) (JS.ToNumber filterValue)
  | between =>
      JS.ge (JS.ToNumber value) (JS.ToNumber filterValue) &&
      JS.le (JS.ToNumber value)
            (JS.ToNumber (default JS.Undefined (f_value2 filter)))
  | isEmpty =>
      negb (JS.ToBoolean value) || String.eqb (JS.trim (JS.ToString value)) ""
  | isNotEmpty =>
      JS.ToBoolean value &&
      negb (String.eqb (JS.trim (JS.ToString value)) "")
  end.

Definition filterRows (rows : list TableRow) (columns : list TableColumn)
  (search : string) (filters : list ColumnFilter) : list TableRow :=
  let filteredRows := rows in
  let filteredRows :=
    if negb (String.eqb search "") then
      let lower := JS.toLowerCase search in
      List.filter (search_matches columns lower) filteredRows
    else filteredRows in
  let filteredRows :=
    if (0 <? length filters)%nat then
      List.filter (fun row => forallb (filter_passes row) filters) filteredRows
    else filteredRows in
  filteredRows.

(** The page window, computed from the sorted rows. *)
Definition pagedRows (sortedRows : list TableRow) (page pageSize : Z)
  : list TableRow :=
  if (length sortedRows =? 0)%nat then []
  else slice (page * pageSize) (page * pageSize + pageSize) sortedRows.

End TableManager.

(** ** The export projector *)

Module AdvancedExport.

Inductive ExportScope : Type := All | Visible | Selected | Filtered.

(** The callback of [filters.every] in the export dialog. *)
Definition filter_passes (row : TableRow) (filter : ColumnFilter) : bool :=
  let value := get row (f_column filter) in
  let filterValue := f_value filter in
  match f_operator filter with
  | equals =>
      String.eqb (JS.toLowerCase (JS.ToString value))
                 (JS.toLowerCase (JS.ToString filterValue))
  | contains =>
      JS.includes (JS.toLowerCase (JS.ToString value))
                  (JS.toLowerCase (JS.ToString filterValue))
  | startsWith =>
      JS.startsWith (JS.toLowerCase (JS.ToString value))
                    (JS.toLowerCase (JS.ToString filterValue))
  | endsWith =>
      JS.endsWith (JS.toLowerCase (JS.ToString value))
                  (JS.toLowerCase (JS.ToString filterValue))
  | greaterThan => JS.gt (JS.ToNumber value) (JS.ToNumber filterValue)
  | lessThan => JS.lt (JS.ToNumber value) (JS.ToNumber filterValue)
  | between =>
      JS.ge (JS.ToNumber value) (JS.ToNumber filterValue) &&
      JS.le (JS.ToNumber value)
            (JS.ToNumber (default JS.Undefined (f_value2 filter)))
  | isEmpty =>
      bool_decide (value = JS.Null) || bool_decide (value = JS.Undefined) ||
      String.eqb (JS.trim (JS.ToString value)) ""
  | isNotEmpty =>
      negb (bool_decide (value = JS.Null)) &&
      negb (bool_decide (value = JS.Undefined)) &&
      negb (String.eqb (JS.trim (JS.ToString value)) "")
  end.

Definition visible_columns (columns : list TableColumn) : list TableColumn :=
  List.filter col_visible columns.

Definition getExportData (scope : ExportScope) (state : TableState)
  : list TableRow * list TableColumn :=
  let exportRows := rows state in
  let exportColumns := columns state in
  match scope with
  | Visible => (exportRows, visible_columns (columns state))
  | Selected =>
      if (length (selectedRows state) =? 0)%nat then ([], [])
      else
        (List.filter
           (fun row => JS.array_includes (selectedRows state) (row_id row))
           (rows state),
         visible_columns (columns state))
  | Filtered =>
      let exportRows :=
        if negb (String.eqb (search state) "") then
          let searchLower := JS.toLowerCase (search state) in
          List.filter
            (fun row =>
               existsb
                 (fun col =>
                    col_visible col &&
                    JS.includes
                      (JS.toLowerCase
                         (JS.ToString
                            (JS.nullish (get row (col_id col)) (JS.Str ""))))
                      searchLower)
                 (columns state))
            exportRows
        else exportRows in
      let exportRows :=
        List.filter
          (fun row => forallb (filter_passes row) (filters state))
          exportRows in
      (exportRows, visible_columns (columns state))
  | All => (exportRows, visible_columns (columns state))
  end.

End AdvancedExport.

(** ** The bulk-action handlers *)

Module BulkActions.

Definition count_text (n : nat) : string := JS.digits (Z.of_nat n).

Definition handleBulkDelete (clock : Clock) (state : TableState)
  : list (Clock * Action) :=
  [ (clock, BulkDeleteRows (selectedRows state));
    (clock,
     LogActivity
       {| pl_action := Delete; pl_rowId := None;
          pl_details :=
            "Bulk deleted " +:+ count_text (length (selectedRows state))
            +:+ " rows" |}) ].

(** The copy of one row: [{ ...row, id: uuidv4(), name: `${row.name} (Copy)` }],
    [fresh] being what this call of [uuidv4()] returns. *)
Definition duplicate (fresh : string) (row : TableRow) : TableRow :=
  spread row
    {| part_id := Some fresh;
       part_fields :=
         {[ "name" := JS.Str (JS.ToString (get row "name") +:+ " (Copy)") ]} |}.

(** [uuidv4] gives the identity returned by the [i]-th call of [uuidv4()]
    made by the handler, one call per selected row in row order. *)
Definition handleBulkDuplicate (uuidv4 : nat -> string) (clock : Clock)
  (state : TableState) : list (Clock * Action) :=
  let selectedRowsData :=
    List.filter
      (fun row => JS.array_includes (selectedRows state) (row_id row))
      (rows state) in
  let duplicatedRows :=
    imap (fun i row => duplicate (uuidv4 i) row) selectedRowsData in
  List.map (fun row => (clock, AddRow row)) duplicatedRows ++
  [ (clock,
     LogActivity
       {| pl_action := Create; pl_rowId := None;
          pl_details :=
            "Duplicated " +:+ count_text (length (selectedRows state))
            +:+ " rows" |});
    (clock, SetSelectedRows []) ].

End BulkActions.

(** ** The saved-views handlers *)

Module SavedViews.

(** Nothing is dispatched for a blank name; otherwise the live columns,
    filters, sort and search go into the payload of [saveView]. *)
Definition handleSaveCurrentView (viewName : string) (clock1 clock2 : Clock)
  (state : TableState) : list (Clock * Action) :=
  if String.eqb (JS.trim viewName) "" then []
  else
    [ (clock1,
       SaveView
         {| vp_name := JS.trim viewName;
            vp_columns := columns state;
            vp_filters := filters state;
            vp_sort := sort state;
            vp_search := search state |});
      (clock2,
       LogActivity
         {| pl_action := Create; pl_rowId := None;
            pl_details := "Saved view: " +:+ viewName |}) ].

Definition handleLoadView (viewId : string) (clock : Clock)
  (state : TableState) : list (Clock * Action) :=
  match List.find (fun v => String.eqb (view_id v) viewId) (savedViews state)
  with
  | Some view =>
      [ (clock, LoadView viewId);
        (clock,
         LogActivity
           {| pl_action := Update; pl_rowId := None;
              pl_details := "Loaded view: " +:+ view_name view |}) ]
  | None => []
  end.

End SavedViews.

(** ** The remaining handlers of the components

    The handlers the sections above leave out, each as the list of actions it
    dispatches; what a handler keeps in the component's local state (the
    draft filter, the column order, the error text) is passed in and returned
    beside the dispatches. *)

Module Handlers.

(** *** Sorting ([sortRows] of the table manager) *)

(** IsLessThan on two primitive values: two strings compare by code units,
    anything else as numbers. *)
Definition IsLessThan (x y : JS.value) : option bool :=
  match x, y with
  | JS.Str a, JS.Str b => Some (String.ltb a b)
  | _, _ => JS.IsLessThan (JS.ToNumber x) (JS.ToNumber y)
  end.

Definition lt (x y : JS.value) : bool :=
  match IsLessThan x y with Some b => b | None => false end.

(** The compare function handed to [sort]. *)
Definition compareRows (column : string) (direction : Direction)
  (a b : TableRow) : Z :=
  let aValue := JS.nullish (get a column) (JS.Str "") in
  let bValue := JS.nullish (get b column) (JS.Str "") in
  if lt aValue bValue then match direction with asc => -1 | desc => 1 end
  else if lt bValue aValue then match direction with asc => 1 | desc => -1 end
  else 0.

(** [xs.sort(comparefn)]: the stable ordering by [comparefn].  The language
    fixes the result only for a compare function that is a consistent
    ordering of the elements; it is then the one computed here, by insertion
    from the right, an element staying before those it ties with. *)
Fixpoint sort_insert {A : Type} (comparefn : A → A → Z) (x : A) (xs : list A)
  : list A :=
  match xs with
  | [] => [x]
  | y :: ys =>
      if 0 <? comparefn x y then y :: sort_insert comparefn x ys
      else x :: y :: ys
  end.

Definition array_sort {A : Type} (comparefn : A → A → Z) (xs : list A)
  : list A :=
  foldr (sort_insert comparefn) [] xs.

Definition sortRows (rows : list TableRow) (sort : option Sort)
  : list TableRow :=
  match sort with
  | None => rows
  | Some s => array_sort (compareRows (sort_column s) (sort_direction s)) rows
  end.

(** *** The memoised values of the table manager *)


Definition filteredRows (state : TableState) : list TableRow :=
  if (length (rows state) =? 0)%nat then []
  else TableManager.filterRows (rows state) (columns state) (search state)
         (filters state).

Definition sortedRows (state : TableState) : list TableRow :=
  if (length (filteredRows state) =? 0)%nat then []
  else sortRows (filteredRows state) (sort state).

Definition pagedRows (state : TableState) : list TableRow :=
  TableManager.pagedRows (sortedRows state) (page state) (pageSize state).

(** *** Handlers of the table manager *)

Definition handleSort (columnId : string) (clock : Clock) (state : TableState)
  : list (Clock * Action) :=
  let isAsc :=
    match sort state with
    | Some s =>
        String.eqb (sort_column s) columnId &&
        match sort_direction s with asc => true | desc => false end
    | None => false
    end in
  [ (clock,
     SetSort (Some {| sort_column := columnId;
                      sort_direction := if isAsc then desc else asc |})) ].

Definition handleSelectAllRows (checked : bool) (clock : Clock)
  (state : TableState) : list (Clock * Action) :=
  if checked then
    [ (clock, SetSelectedRows (List.map row_id (pagedRows state))) ]
  else [ (clock, SetSelectedRows []) ].

(** [id] is the identity held by the delete dialog, if any. *)
Definition confirmDelete (id : option string) (clock : Clock)
  : list (Clock * Action) :=
  match id with
  | Some id =>
      if String.eqb id "" then []
      else
        [ (clock, DeleteRow id);
          (clock,
           LogActivity {| pl_action := Delete; pl_rowId := None;
                          pl_details := "Deleted row " +:+ id |}) ]
  | None => []
  end.

Definition toggle_visible (col : TableColumn) : TableColumn :=
  {| col_id := col_id col; col_label := col_label col;
     col_visible := negb (col_visible col);
     col_editable := col_editable col; col_type := col_type col;
     col_options := col_options col;
     col_validation := col_validation col |}.

Definition handleToggleColumn (columnId : string) (clock : Clock)
  (state : TableState) : list (Clock * Action) :=
  let newColumns :=
    List.map
      (fun col =>
         if String.eqb (col_id col) columnId then toggle_visible col else col)
      (columns state) in
  [ (clock, SetColumns newColumns) ].

(** [data] is what the parser hands to [complete]: one record of strings per
    line of the file, for a file none of whose lines has more fields than the
    header; [uuidv4 i] is the identity drawn for the [i]-th. *)
Definition handleImportCSV (fileName : string)
  (data : list (gmap string string)) (uuidv4 : nat → string) (clock : Clock)
  : list (Clock * Action) :=
  let importedData :=
    imap (fun i row => {| row_id := uuidv4 i; row_fields := JS.Str <$> row |})
      data in
  [ (clock, SetRows importedData);
    (clock,
     LogActivity
       {| pl_action := Import; pl_rowId := None;
          pl_details :=
            "Imported " +:+ JS.digits (Z.of_nat (length importedData))
            +:+ " rows from " +:+ fileName |}) ].



(** [s.replace(/\s+/g, '_')]: every run of white space becomes one
    underscore.  [in_run] tells that the character before was white space. *)
Fixpoint replace_spaces (in_run : bool) (s : string) : string :=
  match s with
  | EmptyString => EmptyString
  | String c s' =>
      if JS.is_whitespace c then
        if in_run then replace_spaces true s'
        else String "_" (replace_spaces true s')
      else String c (replace_spaces false s')
  end.

Definition newColumn (addColumnName : string) : TableColumn :=
  {| col_id := replace_spaces false (JS.toLowerCase (JS.trim addColumnName));
     col_label := JS.trim addColumnName;
     col_visible := true; col_editable := Some true; col_type := None;
     col_options := None; col_validation := None |}.

(** The dispatches, then the name field and the error text afterwards. *)
Definition handleAddColumn (addColumnName : string) (clock : Clock)
  (state : TableState) : list (Clock * Action) * string * string :=
  if String.eqb (JS.trim addColumnName) "" then
    ([], addColumnName, "Column name cannot be empty.")
  else if
    existsb
      (fun c =>
         String.eqb (JS.toLowerCase (col_label c))
           (JS.toLowerCase (JS.trim addColumnName)))
      (columns state)
  then ([], addColumnName, "Column name must be unique.")
  else
    ([ (clock, SetColumns (columns state ++ [newColumn addColumnName])) ],
     "", "").

(** [xs.indexOf(x)], -1 when [x] is not in [xs]. *)
Fixpoint indexOf (xs : list string) (x : string) : Z :=
  match xs with
  | [] => -1
  | y :: ys =>
      if String.eqb y x then 0
      else let i := indexOf ys x in if i <? 0 then -1 else i + 1
  end.

(** [xs.splice(start, 0, x)]. *)
Definition splice_in {A : Type} (start : Z) (x : A) (xs : list A) : list A :=
  let len := Z.of_nat (length xs) in
  let from := if start <? 0 then Z.max (len + start) 0 else Z.min start len in
  take (Z.to_nat from) xs ++ x :: drop (Z.to_nat from) xs.

(** The drop of the dragged column header on [targetId]: the new column
    order of the component, and the dispatches. *)
Definition handleDrop (draggedColumn : option string) (targetId : string)
  (columnOrder : list string) (clock : Clock) (state : TableState)
  : list string * list (Clock * Action) :=
  match draggedColumn with
  | None => (columnOrder, [])
  | Some dragged =>
      if String.eqb dragged "" || String.eqb dragged targetId
      then (columnOrder, [])
      else
        let dragIndex := indexOf columnOrder dragged in
        let targetIndex := indexOf columnOrder targetId in
        let newOrder :=
          splice_in targetIndex dragged (splice1 dragIndex columnOrder) in
        let newColumns :=
          omap
            (fun id =>
               List.find (fun c => String.eqb (col_id c) id) (columns state))
            newOrder in
        (newOrder, [ (clock, SetColumns newColumns) ])
  end.

(** *** The bulk edit of the bulk-actions menu *)

(** The object [{ [editField]: editValue }] as a partial row. *)
Definition single_update (editField editValue : string) : PartialRow :=
  if String.eqb editField "id" then
    {| part_id := Some editValue; part_fields := ∅ |}
  else
    {| part_id := None; part_fields := {[ editField := JS.Str editValue ]} |}.

Definition handleBulkEdit (editField editValue : string) (clock : Clock)
  (state : TableState) : list (Clock * Action) :=
  if negb (String.eqb editField "") && negb (String.eqb editValue "") then
    [ (clock,
       BulkUpdateRows (selectedRows state)
         (single_update editField editValue));
      (clock,
       LogActivity
         {| pl_action := Update; pl_rowId := None;
            pl_details :=
              "Bulk updated "
              +:+ JS.digits (Z.of_nat (length (selectedRows state)))
              +:+ " rows: " +:+ editField +:+ " = " +:+ editValue |}) ]
  else [].

(** *** The delete of the saved-views dialog *)

Definition handleDeleteView (viewId : string) (clock : Clock)
  (state : TableState) : list (Clock * Action) :=
  match List.find (fun v => String.eqb (view_id v) viewId) (savedViews state)
  with
  | Some view =>
      [ (clock, DeleteSavedView viewId);
        (clock,
         LogActivity
           {| pl_action := Delete; pl_rowId := None;
              pl_details := "Deleted view: " +:+ view_name view |}) ]
  | None => []
  end.

(** *** The filter dialog *)

(** The draft filter of the dialog, a [Partial<ColumnFilter>]. *)
Record DraftFilter : Type := {
  df_column : option string;
  df_operator : option FilterOperator;
  df_value : option JS.value;
  df_value2 : option JS.value;
}.

Definition blankDraft : DraftFilter :=
  {| df_column := Some ""; df_operator := Some equals;
     df_value := Some (JS.Str ""); df_value2 := None |}.

(** The draft afterwards, and the dispatches.  The filter added is the draft
    itself, cast to a filter. *)
Definition handleAddFilter (currentFilter : DraftFilter) (clock : Clock)
  : DraftFilter * list (Clock * Action) :=
  match df_column currentFilter, df_operator currentFilter with
  | Some column, Some operator =>
      if negb (String.eqb column "") &&
         negb (bool_decide (df_value currentFilter = Some (JS.Str "")))
      then
        (blankDraft,
         [ (clock,
            AddFilter
              {| f_column := column; f_operator := operator;
                 f_value := default JS.Undefined (df_value currentFilter);
                 f_value2 := df_value2 currentFilter |}) ])
      else (currentFilter, [])
  | _, _ => (currentFilter, [])
  end.

(** The [disabled] of the Add Filter button. *)
Definition addFilterDisabled (currentFilter : DraftFilter) : bool :=
  negb (JS.ToBoolean (JS.Str (default "" (df_column currentFilter))))
  || (negb
        match df_operator currentFilter with
        | Some isEmpty | Some isNotEmpty => true
        | _ => false
        end
      && negb (JS.ToBoolean (default JS.Undefined (df_value currentFilter)))).

(** *** The export of the export dialog *)

Inductive ExportFormat : Type := csv | pdf | json.

Definition scope_name (scope : AdvancedExport.ExportScope) : string :=
  match scope with
  | AdvancedExport.All => "all"
  | AdvancedExport.Visible => "visible"
  | AdvancedExport.Selected => "selected"
  | AdvancedExport.Filtered => "filtered"
  end.

(** [obj[key] = v] on an object kept as its list of properties, in
    insertion order. *)
Fixpoint object_set (key : string) (v : JS.value)
  (obj : list (string * JS.value)) : list (string * JS.value) :=
  match obj with
  | [] => [(key, v)]
  | (k, w) :: obj' =>
      if String.eqb k key then (k, v) :: obj'
      else (k, w) :: object_set key v obj'
  end.

(** What is handed to the encoder of each format. *)
Inductive ExportContent : Type :=
| CsvFields (fields : list string) (data : list (list JS.value))
| PdfTable (head : list string) (body : list (list string)) (startY : Z)
| JsonData (jsonData : list (list (string * JS.value))).

Record ExportFile : Type := {
  file_name : string;
  file_metadata : string;
  file_content : ExportContent;
}.

(** [localeNow] is the text of [new Date().toLocaleString()].  [None] is
    the alert that there is no data, with nothing written. *)
Definition handleExport (format : ExportFormat)
  (scope : AdvancedExport.ExportScope) (fileName : string)
  (includeHeaders includeMetadata : bool) (localeNow : string)
  (state : TableState) : option ExportFile :=
  let '(dataToExport, columnsToExport) :=
    AdvancedExport.getExportData scope state in
  if (length dataToExport =? 0)%nat then None
  else
    let headers := List.map col_label columnsToExport in
    let data :=
      List.map
        (fun row => List.map (fun col => get row (col_id col)) columnsToExport)
        dataToExport in
    let metadata :=
      if includeMetadata then
        "Export Date: " +:+ localeNow +:+ String "010" ""
        +:+ "Export Scope: " +:+ scope_name scope +:+ String "010" ""
        +:+ "Total Rows: " +:+ JS.digits (Z.of_nat (length dataToExport))
        +:+ String "010" ""
        +:+ "Total Columns: "
        +:+ JS.digits (Z.of_nat (length columnsToExport))
        +:+ String "010" (String "010" "")
      else "" in
    match format with
    | csv =>
        Some {| file_name := fileName +:+ ".csv"; file_metadata := metadata;
                file_content := CsvFields headers data |}
    | pdf =>
        Some {| file_name := fileName +:+ ".pdf"; file_metadata := metadata;
                file_content :=
                  PdfTable headers
                    (List.map
                       (List.map
                          (fun cell =>
                             JS.ToString (JS.nullish cell (JS.Str ""))))
                       data)
                    (if includeMetadata then 40 else 10) |}
    | json =>
        Some {| file_name := fileName +:+ ".json"; file_metadata := metadata;
                file_content :=
                  JsonData
                    (List.map
                       (fun row =>
                          fold_left
                            (fun obj col =>
                               object_set (col_id col) (get row (col_id col))
                                 obj)
                            columnsToExport [])
                       dataToExport) |}
    end.

(** The [disabled] of the Export button. *)
Definition exportDisabled (scope : AdvancedExport.ExportScope)
  (fileName : string) (state : TableState) : bool :=
  let canExport :=
    (0 <? length (AdvancedExport.getExportData scope state).1)%nat in
  negb canExport || String.eqb (JS.trim fileName) "".

End Handlers.

(** ** Vocabulary of the properties *)

(** The appends of [entries], oldest first, dispatched one by one, and the
    log entries they create. *)
Definition appends (entries : list (Clock * ActivityPayload))
  : list (Clock * Action) :=
  List.map (fun e => (e.1, LogActivity e.2)) entries.

Definition logged (entries : list (Clock * ActivityPayload))
  : list ActivityLog :=
  List.map (fun e => new_log e.1 e.2) entries.

(** Number of pages: [ceil(len / pageSize)]. *)
Definition pageCount (len pageSize : Z) : Z := (len + pageSize - 1) / pageSize.

(** [sub] occurs in [s]. *)
Definition is_substring (sub s : string) : Prop :=
  ∃ pre post, s = pre +:+ sub +:+ post.

(** The text the search stage looks into for one cell: the value, the empty
    string standing in for [null] and [undefined], as a lower-cased string. *)
Definition cell_text (row : TableRow) (col : TableColumn) : string :=
  JS.toLowerCase
    (JS.ToString (JS.nullish (get row (col_id col)) (JS.Str ""))).

(** Some visible column of [row] contains the search text, case aside. *)
Definition search_hit (columns : list TableColumn) (search : string)
  (row : TableRow) : Prop :=
  ∃ col, col ∈ columns ∧ col_visible col = true ∧
         is_substring (JS.toLowerCase search) (cell_text row col).

(** The three numbers a numeric filter compares on a row. *)
Definition row_number (row : TableRow) (filter : ColumnFilter) : JS.number :=
  JS.ToNumber (get row (f_column filter)).
Definition primary_number (filter : ColumnFilter) : JS.number :=
  JS.ToNumber (f_value filter).
Definition secondary_number (filter : ColumnFilter) : JS.number :=
  JS.ToNumber (default JS.Undefined (f_value2 filter)).

(** The mutations of the live query state: columns, filters, sort, search. *)
Definition query_mutation (action : Action) : bool :=
  match action with
  | SetColumns _ | SetFilters _ | AddFilter _ | RemoveFilter _
  | SetSort _ | SetSearch _ => true
  | _ => false
  end.

(** The actions that leave the list of saved views alone. *)
Definition keeps_views (action : Action) : bool :=
  match action with
  | SaveView _ | DeleteSavedView _ => false
  | _ => true
  end.

(** A value that is falsy without being [null], [undefined] or the empty
    string: [false], a zero, [NaN]. *)
Definition falsy_nonempty (v : JS.value) : bool :=
  match v with
  | JS.Bool false | JS.Num JS.NaN => true
  | JS.Num (JS.Finite m _) => m =? 0
  | _ => false
  end.

(** Emptiness as the specification words it: [null], [undefined], or a
    string representation that trims to the empty string. *)
Definition spec_empty (v : JS.value) : Prop :=
  v = JS.Null ∨ v = JS.Undefined ∨ JS.trim (JS.ToString v) = "".

(** The labels of the columns differ pairwise, case aside. *)
Definition labels_distinct (cols : list TableColumn) : Prop :=
  NoDup ((λ c, JS.toLowerCase (col_label c)) <$> cols).

(** The value [sortRows] compares for a row, and its text. *)
Definition sort_key (column : string) (row : TableRow) : JS.value :=
  JS.nullish (get row column) (JS.Str "").

Definition key_text (column : string) (row : TableRow) : string :=
  JS.ToString (sort_key column row).

(** The order [sortRows] is after, on rows whose keys are strings. *)
Definition in_order (column : string) (direction : Direction)
  (a b : TableRow) : Prop :=
  match direction with
  | asc => String.le (key_text column a) (key_text column b)
  | desc => String.le (key_text column b) (key_text column a)
  end.

(** A filter with another operator, or another value. *)
Definition with_operator (operator : FilterOperator) (filter : ColumnFilter)
  : ColumnFilter :=
  {| f_column := f_column filter; f_operator := operator;
     f_value := f_value filter; f_value2 := f_value2 filter |}.

Definition with_value (v : JS.value) (filter : ColumnFilter) : ColumnFilter :=
  {| f_column := f_column filter; f_operator := f_operator filter;
     f_value := v; f_value2 := f_value2 filter |}.

(** The lower-cased texts a text filter compares: the cell's, the filter's. *)
Definition cell_lower (row : TableRow) (filter : ColumnFilter) : string :=
  JS.toLowerCase (JS.ToString (get row (f_column filter))).

Definition filter_lower (filter : ColumnFilter) : string :=
  JS.toLowerCase (JS.ToString (f_value filter)).

(** * Properties *)

(** ** The primitives on small inputs *)

Example ToString_samples :
  List.map JS.ToString
    [ JS.Undefined; JS.Null; JS.Bool false; JS.Num (JS.of_Z 0);
      JS.Num (JS.of_Z (-17)); JS.Num (JS.Finite 15 (-1));
      JS.Num (JS.Finite 1 21); JS.Num JS.NaN; JS.Str "John" ]
  = [ "undefined"; "null"; "false"; "0"; "-17"; "1.5"; "1e+21"; "NaN";
      "John" ].
Proof. reflexivity. Qed.

Example ToNumber_samples :
  List.map JS.ToNumber
    [ JS.Undefined; JS.Null; JS.Bool true; JS.Str ""; JS.Str " 42 ";
      JS.Str "1.5e3"; JS.Str "0x1F"; JS.Str "-Infinity"; JS.Str "ten";
      JS.Str "12px" ]
  = [ JS.NaN; JS.Finite 0 0; JS.Finite 1 0; JS.Finite 0 0; JS.Finite 42 0;
      JS.Finite 15 2; JS.Finite 31 0; JS.Infinity true; JS.NaN; JS.NaN ].
Proof. reflexivity. Qed.

Example ToBoolean_samples :
  List.map JS.ToBoolean
    [ JS.Undefined; JS.Null; JS.Bool false; JS.Num (JS.of_Z 0); JS.Num JS.NaN;
      JS.Str ""; JS.Str "0"; JS.Num (JS.of_Z 7); JS.Str " " ]
  = [ false; false; false; false; false; false; true; true; true ].
Proof. reflexivity. Qed.

Example comparison_samples :
  JS.lt (JS.Finite 15 (-1)) (JS.of_Z 2) = true
  ∧ JS.le (JS.Finite 20 (-1)) (JS.of_Z 2) = true
  ∧ JS.gt (JS.of_Z 40) (JS.of_Z 18) = true
  ∧ JS.ge JS.NaN JS.NaN = false.
Proof. repeat split; reflexivity. Qed.

Example string_samples :
  JS.trim "  a b  " = "a b"
  ∧ JS.toLowerCase "John Q" = "john q"
  ∧ JS.includes "john" "oh" = true
  ∧ JS.includes "john" "" = true
  ∧ JS.endsWith "john" "hn" = true
  ∧ JS.startsWith "john" "oh" = false.
Proof. repeat split; reflexivity. Qed.

(** The scenario of the specification: ages 17 and 40 against
    [greaterThan 18]. *)
Example greaterThan_18 :
  let row := fun id age =>
    {| row_id := id; row_fields := {[ "age" := JS.Num (JS.of_Z age) ]} |} in
  TableManager.filterRows [row "1" 17; row "2" 40] initialColumns ""
    [ {| f_column := "age"; f_operator := greaterThan;
         f_value := JS.Num (JS.of_Z 18); f_value2 := None |} ]
  = [row "2" 40].
Proof. reflexivity. Qed.

(** ** Dispatching *)

Lemma run_cons (c : Clock) (a : Action) (ds : list (Clock * Action))
  (state : TableState) :
  run ((c, a) :: ds) state = run ds (reducer c a state).
Proof. reflexivity. Qed.

Lemma run_app (ds1 ds2 : list (Clock * Action)) (state : TableState) :
  run (ds1 ++ ds2) state = run ds2 (run ds1 state).
Proof. unfold run. apply fold_left_app. Qed.

(** ** Arrays of identities *)

Lemma array_includes_elem_of (xs : list string) (x : string) :
  JS.array_includes xs x = true ↔ x ∈ xs.
Proof.
  unfold JS.array_includes. rewrite existsb_exists. split.
  - intros (y & Hy & Heq). apply String.eqb_eq in Heq. subst y.
    by apply list_elem_of_In.
  - intros Hx. exists x. split; [by apply list_elem_of_In|].
    apply String.eqb_refl.
Qed.

Lemma array_includes_not_elem_of (xs : list string) (x : string) :
  JS.array_includes xs x = false ↔ x ∉ xs.
Proof.
  rewrite <- array_includes_elem_of.
  destruct (JS.array_includes xs x); split; congruence.
Qed.

Lemma elem_of_List_filter {A : Type} (p : A → bool) (xs : list A) (x : A) :
  x ∈ List.filter p xs ↔ x ∈ xs ∧ p x = true.
Proof. rewrite !list_elem_of_In. apply filter_In. Qed.

Lemma eqb_neq_negb (a b : string) : negb (String.eqb a b) = true ↔ a ≠ b.
Proof.
  rewrite negb_true_iff. apply String.eqb_neq.
Qed.

(** ** Selection *)

Lemma toggle_selected (state : TableState) (id : string) :
  id ∈ selectedRows state →
  selectedRows (toggleRowSelection id state)
  = List.filter (fun x => negb (String.eqb x id)) (selectedRows state).
Proof.
  intros Hin. unfold toggleRowSelection.
  apply array_includes_elem_of in Hin. by rewrite Hin.
Qed.

Lemma toggle_unselected (state : TableState) (id : string) :
  id ∉ selectedRows state →
  selectedRows (toggleRowSelection id state) = selectedRows state ++ [id].
Proof.
  intros Hin. unfold toggleRowSelection.
  apply array_includes_not_elem_of in Hin. by rewrite Hin.
Qed.

Lemma toggle_membership (state : TableState) (id x : string) :
  x ∈ selectedRows (toggleRowSelection id state) ↔
  (x = id ∧ id ∉ selectedRows state) ∨ (x ≠ id ∧ x ∈ selectedRows state).
Proof.
  destruct (decide (id ∈ selectedRows state)) as [Hin | Hout].
  - rewrite toggle_selected by done.
    rewrite elem_of_List_filter, eqb_neq_negb.
    destruct (decide (x = id)); subst; tauto.
  - rewrite toggle_unselected by done.
    rewrite elem_of_app, list_elem_of_singleton.
    destruct (decide (x = id)); subst; tauto.
Qed.

(** C10.  [toggleRowSelection(id)] flips the membership of [id] in the
    selection and leaves the membership of every other identity as it was;
    toggling the same identity twice gives back a selection with the same
    members, that is the same set of identities. *)
Theorem toggleRowSelection_involutive_on_sets (state : TableState)
  (id : string) :
  (id ∈ selectedRows (toggleRowSelection id state) ↔ id ∉ selectedRows state)
  ∧ (∀ other, other ≠ id →
       (other ∈ selectedRows (toggleRowSelection id state) ↔
        other ∈ selectedRows state))
  ∧ (list_to_set
       (selectedRows (toggleRowSelection id (toggleRowSelection id state)))
     =@{gset string} list_to_set (selectedRows state)).
Proof.
  split; [|split].
  - rewrite toggle_membership. tauto.
  - intros other Hne. rewrite toggle_membership. tauto.
  - apply set_eq. intros x. rewrite !elem_of_list_to_set.
    rewrite !toggle_membership.
    destruct (decide (x = id)) as [-> | Hne];
      destruct (decide (id ∈ selectedRows state)); tauto.
Qed.

(** ** Bulk delete *)

Lemma bulkDeleteRows_rows (ids : list string) (state : TableState) :
  rows (bulkDeleteRows ids state)
  = filter (λ row, row_id row ∉ ids) (rows state).
Proof.
  unfold bulkDeleteRows. simpl.
  induction (rows state) as [|row rs IH]; [done|].
  simpl. rewrite filter_cons.
  destruct (JS.array_includes ids (row_id row)) eqn:Hinc; simpl.
  - apply array_includes_elem_of in Hinc.
    rewrite decide_False by (intros Hn; by apply Hn). done.
  - apply array_includes_not_elem_of in Hinc.
    rewrite decide_True by done. by f_equal.
Qed.

Lemma logActivity_rows clock payload state :
  rows (logActivity clock payload state) = rows state.
Proof. unfold logActivity. by case_match. Qed.

Lemma logActivity_selectedRows clock payload state :
  selectedRows (logActivity clock payload state) = selectedRows state.
Proof. unfold logActivity. by case_match. Qed.

(** C6.  After [bulkDeleteRows(ids)] no row bears an identity of [ids], the
    rows left are the earlier rows with an identity outside [ids], in their
    earlier order, and the selection is empty.  The reducer publishes that
    one state, and every state published while the bulk-delete handler runs
    has the rows gone and the selection empty together. *)
Theorem bulkDeleteRows_removes_and_clears (state : TableState)
  (ids : list string) :
  let state' := bulkDeleteRows ids state in
  (∀ row, row ∈ rows state' → row_id row ∉ ids)
  ∧ rows state' = filter (λ row, row_id row ∉ ids) (rows state)
  ∧ selectedRows state' = []
  ∧ (∀ clock, trace [(clock, BulkDeleteRows ids)] state = [state'])
  ∧ (∀ clock st,
       st ∈ trace (BulkActions.handleBulkDelete clock state) state →
       selectedRows st = [] ∧
       ∀ row, row ∈ rows st → row_id row ∉ selectedRows state).
Proof.
  intros state'. subst state'.
  split; [|split; [|split; [|split]]].
  - intros row. rewrite bulkDeleteRows_rows, list_elem_of_filter. tauto.
  - apply bulkDeleteRows_rows.
  - reflexivity.
  - reflexivity.
  - intros clock st Hst. simpl in Hst.
    apply elem_of_cons in Hst as [-> | Hst].
    + split; [done|]. intros row.
      rewrite bulkDeleteRows_rows, list_elem_of_filter. tauto.
    + apply list_elem_of_singleton in Hst as ->.
      rewrite logActivity_selectedRows, logActivity_rows.
      split; [done|]. intros row.
      rewrite bulkDeleteRows_rows, list_elem_of_filter. tauto.
Qed.

(** ** Activity log *)

Lemma logActivity_activityLog clock payload state :
  activityLog (logActivity clock payload state)
  = take 1000 (new_log clock payload :: activityLog state).
Proof.
  unfold logActivity.
  destruct (1000 <? Z.of_nat (length (new_log clock payload
                                      :: activityLog state)))
    eqn:Hlen; [done|].
  apply Z.ltb_ge in Hlen.
  cbn [activityLog with_activityLog].
  symmetry. apply take_ge. lia.
Qed.

Lemma take_app_take {A : Type} (n m : nat) (xs ys : list A) :
  (n ≤ m)%nat → take n (xs ++ take m ys) = take n (xs ++ ys).
Proof.
  revert n. induction xs as [|x xs IH]; intros n Hnm.
  - simpl. rewrite take_take. f_equal. lia.
  - destruct n as [|n]; [done|]. simpl. f_equal. apply IH. lia.
Qed.

Lemma run_appends (entries : list (Clock * ActivityPayload))
  (state : TableState) :
  entries ≠ [] →
  activityLog (run (appends entries) state)
  = take 1000 (reverse (logged entries) ++ activityLog state).
Proof.
  revert state. induction entries as [|[c p] es IH]; intros state Hne; [done|].
  destruct es as [|e es].
  - simpl. apply logActivity_activityLog.
  - change (appends ((c, p) :: e :: es))
      with ((c, LogActivity p) :: appends (e :: es)).
    rewrite run_cons. cbn [reducer]. rewrite IH by done. rewrite logActivity_activityLog.
    rewrite take_app_take by lia.
    change (logged ((c, p) :: e :: es))
      with (new_log c p :: logged (e :: es)).
    rewrite (reverse_cons (logged (e :: es))). by rewrite <- app_assoc.
Qed.

Lemma reducer_log_bound clock action state :
  (length (activityLog state) ≤ 1000)%nat →
  (length (activityLog (reducer clock action state)) ≤ 1000)%nat.
Proof.
  intros Hbound. destruct action; simpl; try done.
  - unfold toggleRowSelection. by case_match.
  - rewrite logActivity_activityLog, length_take. lia.
  - unfold loadView. by case_match.
Qed.

Lemma run_log_bound (ds : list (Clock * Action)) (state : TableState) :
  (length (activityLog state) ≤ 1000)%nat →
  (length (activityLog (run ds state)) ≤ 1000)%nat.
Proof.
  revert state. induction ds as [|[c a] ds IH]; intros state Hbound; [done|].
  rewrite run_cons. apply IH. by apply reducer_log_bound.
Qed.

(** C5.  From the initial state the log never holds more than 1000 entries.
    An append puts the new entry first and keeps the first thousand of
    the result, so the log never exceeds 1000 entries after an append and only
    the oldest are dropped.  After 1001 appends to an empty log the log is the
    last 1000 entries, newest first: it has exactly 1000 entries, starts with
    the last one appended, and the first one appended is gone. *)
Theorem activityLog_keeps_newest_1000 :
  (∀ clock payload state,
     activityLog (logActivity clock payload state)
     = take 1000 (new_log clock payload :: activityLog state)
     ∧ (length (activityLog (logActivity clock payload state)) ≤ 1000)%nat)
  ∧ (∀ state (entries : list (Clock * ActivityPayload)),
       activityLog state = [] →
       length entries = 1001%nat →
       let final := run (appends entries) state in
       activityLog final = reverse (logged (drop 1 entries))
       ∧ length (activityLog final) = 1000%nat
       ∧ head (activityLog final) = last (logged entries))
  ∧ (∀ ds : list (Clock * Action),
       (length (activityLog (run ds initialState)) ≤ 1000)%nat).
Proof.
  split; [|split].
  - intros clock payload state. rewrite logActivity_activityLog.
    split; [done|]. rewrite length_take. lia.
  - intros state entries Hempty Hlen final. subst final.
    assert (entries ≠ []) as Hne by (intros ->; discriminate).
    rewrite run_appends by done. rewrite Hempty, app_nil_r.
    rewrite <- head_reverse.
    destruct entries as [|e es]; [done|].
    simpl in Hlen. injection Hlen as Hlen.
    change (drop 1 (e :: es)) with es.
    change (logged (e :: es)) with (new_log e.1 e.2 :: logged es).
    assert (length (reverse (logged es)) = 1000%nat) as Hrev.
    { rewrite length_reverse. unfold logged. by rewrite length_map. }
    rewrite reverse_cons.
    rewrite (take_app_length' (reverse (logged es))) by done.
    split; [done|]. split; [done|].
    destruct (reverse (logged es)); [discriminate|done].
  - intros ds. apply run_log_bound. simpl. lia.
Qed.

Lemma activityLog_keeps_newest_1000_witness :
  let clock := {| now := 1700000000000; iso := "2023-11-14T22:13:20.000Z" |} in
  let entries :=
    List.map
      (fun i =>
         (clock,
          {| pl_action := Create; pl_rowId := None;
             pl_details := JS.digits (Z.of_nat i) |}))
      (seq 0 1001) in
  length (activityLog (run (appends entries) initialState)) = 1000%nat.
Proof.
  intros clock entries.
  apply (proj1 (proj2 activityLog_keeps_newest_1000) initialState entries).
  - reflexivity.
  - vm_compute. reflexivity.
Defined.

(** ** Pagination *)

Lemma slice_window {A : Type} (xs : list A) (start size : Z) :
  0 ≤ start → 0 ≤ size →
  slice start (start + size) xs
  = take (Z.to_nat size) (drop (Z.to_nat start) xs).
Proof.
  intros Hstart Hsize. unfold slice.
  rewrite (proj2 (Z.ltb_ge start 0)) by lia.
  rewrite (proj2 (Z.ltb_ge (start + size) 0)) by lia.
  destruct (decide (Z.of_nat (length xs) ≤ start)) as [Hout | Hin].
  - rewrite (drop_ge xs (Z.to_nat start)) by lia.
    rewrite (drop_ge xs) by lia. by rewrite !take_nil.
  - rewrite (Z.min_l start) by lia.
    destruct (decide (start + size ≤ Z.of_nat (length xs))) as [Hfit | Hcut].
    + rewrite (Z.min_l (start + size)) by lia. do 2 f_equal. lia.
    + rewrite (Z.min_r (start + size)) by lia.
      rewrite !take_ge; [done | rewrite length_drop; lia ..].
Qed.

Lemma pagedRows_window (sortedRows : list TableRow) (page pageSize : Z) :
  0 ≤ page → 0 ≤ pageSize →
  TableManager.pagedRows sortedRows page pageSize
  = take (Z.to_nat pageSize) (drop (Z.to_nat (page * pageSize)) sortedRows).
Proof.
  intros Hpage Hsize. unfold TableManager.pagedRows.
  destruct sortedRows as [|row rs].
  - simpl. by rewrite drop_nil, take_nil.
  - cbn [length Nat.eqb]. apply slice_window; lia.
Qed.

(** The first [count] windows of width [size], one after the other, are the
    first [count * size] elements. *)
Lemma windows_concat {A : Type} (xs : list A) (size count : nat) :
  concat (List.map (fun p => take size (drop (p * size) xs)) (seq 0 count))
  = take (count * size) xs.
Proof.
  induction count as [|count IH]; [done|].
  rewrite seq_S, map_app, concat_app, IH. simpl.
  rewrite app_nil_r, take_take_drop. f_equal. lia.
Qed.

Lemma pageCount_covers (len pageSize : Z) :
  0 ≤ len → 0 < pageSize →
  0 ≤ pageCount len pageSize ∧ len ≤ pageCount len pageSize * pageSize.
Proof.
  intros Hlen Hsize. unfold pageCount.
  pose proof (Z.div_mod (len + pageSize - 1) pageSize ltac:(lia)) as Hdm.
  pose proof (Z.mod_pos_bound (len + pageSize - 1) pageSize Hsize) as Hmod.
  split; [apply Z.div_pos; lia | nia].
Qed.

Lemma pages_concat (sortedRows : list TableRow) (pageSize count : Z) :
  0 ≤ pageSize → 0 ≤ count →
  concat
    (List.map (fun p => TableManager.pagedRows sortedRows p pageSize)
       (seqZ 0 count))
  = take (Z.to_nat (count * pageSize)) sortedRows.
Proof.
  intros Hsize Hcount.
  rewrite Z2Nat.inj_mul by lia.
  rewrite <- (windows_concat sortedRows (Z.to_nat pageSize) (Z.to_nat count)).
  unfold seqZ. rewrite <- list_fmap_compose.
  f_equal. apply map_ext_in. intros p Hp. apply in_seq in Hp.
  unfold compose. rewrite pagedRows_window by lia.
  do 2 f_equal. lia.
Qed.

(** C7.  For a zero-based page index and a page size, the page is the slice
    [[page*pageSize, page*pageSize + pageSize)] cut to the sequence: it has at
    most [pageSize] rows, it is empty (no error) when the page starts at or
    past the end, and for a positive page size the pages
    [0 .. ceil(len/pageSize)], whether the last bound is left out or included,
    put end to end are the sequence. *)
Theorem pagedRows_pages (sortedRows : list TableRow) (page pageSize : Z) :
  0 ≤ page → 0 ≤ pageSize →
  let window := fun p => TableManager.pagedRows sortedRows p pageSize in
  let pages := pageCount (Z.of_nat (length sortedRows)) pageSize in
  window page
  = take (Z.to_nat pageSize) (drop (Z.to_nat (page * pageSize)) sortedRows)
  ∧ Z.of_nat (length (window page)) ≤ pageSize
  ∧ (Z.of_nat (length sortedRows) ≤ page * pageSize → window page = [])
  ∧ (0 < pageSize →
     concat (List.map window (seqZ 0 pages)) = sortedRows
     ∧ window pages = []
     ∧ concat (List.map window (seqZ 0 (pages + 1))) = sortedRows).
Proof.
  intros Hpage Hsize window pages. subst window. cbv beta.
  split; [by apply pagedRows_window|].
  split; [rewrite pagedRows_window, length_take by done; lia|].
  split.
  { intros Hout. rewrite pagedRows_window by done.
    rewrite drop_ge by nia. apply take_nil. }
  intros Hpos.
  destruct (pageCount_covers (Z.of_nat (length sortedRows)) pageSize)
    as [Hpages Hcover]; [lia | done |]. fold pages in Hpages, Hcover.
  split; [|split].
  - rewrite pages_concat by lia. apply take_ge. lia.
  - rewrite pagedRows_window by lia. rewrite drop_ge by lia. apply take_nil.
  - rewrite pages_concat by lia. apply take_ge. nia.
Qed.

Lemma pagedRows_pages_witness :
  let r := fun id => {| row_id := id; row_fields := ∅ |} in
  TableManager.pagedRows [r "a"; r "b"; r "c"; r "d"; r "e"] 2 2 = [r "e"]
  ∧ concat
      (List.map
         (fun p =>
            TableManager.pagedRows [r "a"; r "b"; r "c"; r "d"; r "e"] p 2)
         (seqZ 0 (pageCount 5 2)))
    = [r "a"; r "b"; r "c"; r "d"; r "e"].
Proof.
  intros r.
  pose proof
    (pagedRows_pages [r "a"; r "b"; r "c"; r "d"; r "e"] 2 2
       ltac:(lia) ltac:(lia)) as (Hwin & _ & _ & Hcat).
  split.
  - exact Hwin.
  - exact (proj1 (Hcat ltac:(lia))).
Defined.

(** ** Search stage *)

Lemma append_cons (c : ascii) (s t : string) :
  String c s +:+ t = String c (s +:+ t).
Proof. reflexivity. Qed.

Lemma append_empty_l (t : string) : "" +:+ t = t.
Proof. reflexivity. Qed.

Lemma startsWith_spec (s search : string) :
  JS.startsWith s search = true ↔ ∃ post, s = search +:+ post.
Proof.
  unfold JS.startsWith. revert s.
  induction search as [|c search IH]; intros s.
  - split; [intros _; exists s; reflexivity | intros _; by destruct s].
  - destruct s as [|d s]; simpl.
    + split; [done | intros [post Hpost]; discriminate].
    + destruct (ascii_dec c d) as [-> | Hne].
      * rewrite IH. split; intros [post Hpost]; exists post.
        -- rewrite append_cons. by f_equal.
        -- rewrite append_cons in Hpost. congruence.
      * split; [done|]. intros [post Hpost].
        rewrite append_cons in Hpost. congruence.
Qed.

Lemma includes_spec (s search : string) :
  JS.includes s search = true ↔ is_substring search s.
Proof.
  unfold is_substring. induction s as [|c s IH].
  - cbn [JS.includes]. rewrite orb_false_r, startsWith_spec. split.
    + intros [post Hpost]. exists "", post. exact Hpost.
    + intros (pre & post & Heq). destruct pre; [|discriminate].
      exists post. exact Heq.
  - cbn [JS.includes]. rewrite orb_true_iff, startsWith_spec, IH. split.
    + intros [[post Hpost] | (pre & post & Heq)].
      * exists "", post. exact Hpost.
      * exists (String c pre), post. rewrite append_cons. by f_equal.
    + intros (pre & post & Heq). destruct pre as [|d pre].
      * left. exists post. exact Heq.
      * right. exists pre, post. rewrite append_cons in Heq. congruence.
Qed.

Lemma search_matches_spec (columns : list TableColumn) (search : string)
  (row : TableRow) :
  TableManager.search_matches columns (JS.toLowerCase search) row = true
  ↔ search_hit columns search row.
Proof.
  unfold TableManager.search_matches, search_hit.
  rewrite existsb_exists. split.
  - intros (col & Hin & Hcol). apply andb_true_iff in Hcol as [Hvis Hinc].
    exists col. rewrite list_elem_of_In. by apply includes_spec in Hinc.
  - intros (col & Hin & Hvis & Hsub). exists col.
    rewrite <- list_elem_of_In. split; [done|].
    apply andb_true_iff. split; [done|]. by apply includes_spec.
Qed.

Lemma filterRows_search_first (rows : list TableRow)
  (columns : list TableColumn) (search : string)
  (filters : list ColumnFilter) :
  search ≠ "" →
  TableManager.filterRows rows columns search filters
  = TableManager.filterRows
      (List.filter (TableManager.search_matches columns (JS.toLowerCase search))
         rows)
      columns "" filters.
Proof.
  intros Hne. unfold TableManager.filterRows.
  apply String.eqb_neq in Hne. by rewrite Hne.
Qed.

(** C9.  With a non-empty search text the search stage keeps exactly the rows
    in which some visible column's value, as a string, contains the
    lower-cased search text once lower-cased itself, an absent or [null]
    value counting as the empty string; the rows kept stay in order and the
    filters run on them afterwards.  The text ["jo"] hits a row whose visible
    column holds ["John"]. *)
Theorem search_stage_keeps_hits (rows : list TableRow)
  (columns : list TableColumn) (search : string) :
  search ≠ "" →
  (∀ row, row ∈ TableManager.filterRows rows columns search [] ↔
          row ∈ rows ∧ search_hit columns search row)
  ∧ (∃ keep : TableRow → bool,
       (∀ row, keep row = true ↔ search_hit columns search row)
       ∧ TableManager.filterRows rows columns search [] = List.filter keep rows
       ∧ ∀ filters,
           TableManager.filterRows rows columns search filters
           = TableManager.filterRows (List.filter keep rows) columns "" filters)
  ∧ (∀ row col,
       get row (col_id col) = JS.Undefined ∨ get row (col_id col) = JS.Null →
       cell_text row col = "")
  ∧ (∀ row col,
       col ∈ columns → col_visible col = true →
       get row (col_id col) = JS.Str "John" →
       search_hit columns "jo" row).
Proof.
  intros Hne. split; [|split; [|split]].
  - intros row. rewrite filterRows_search_first by done.
    unfold TableManager.filterRows. simpl.
    rewrite elem_of_List_filter, search_matches_spec. tauto.
  - exists (TableManager.search_matches columns (JS.toLowerCase search)).
    split; [intros row; apply search_matches_spec|].
    split; [|intros filters; by apply filterRows_search_first].
    by rewrite filterRows_search_first.
  - intros row col [Hv | Hv]; unfold cell_text; by rewrite Hv.
  - intros row col Hcol Hvis Hjohn. exists col.
    split; [done|]. split; [done|].
    unfold cell_text. rewrite Hjohn. exists "", "hn". reflexivity.
Qed.

Lemma search_stage_keeps_hits_witness :
  let john :=
    {| row_id := "r1"; row_fields := {[ "name" := JS.Str "John" ]} |} in
  let mary :=
    {| row_id := "r2"; row_fields := {[ "name" := JS.Str "Mary" ]} |} in
  john ∈ TableManager.filterRows [john; mary] initialColumns "jo" []
  ∧ mary ∉ TableManager.filterRows [john; mary] initialColumns "jo" [].
Proof.
  intros john mary.
  pose proof
    (search_stage_keeps_hits [john; mary] initialColumns "jo"
       ltac:(discriminate)) as (Hkept & _ & _ & _).
  split.
  - apply Hkept. split; [apply list_elem_of_here|].
    exists {| col_id := "name"; col_label := "Name"; col_visible := true;
              col_editable := Some true; col_type := Some TText;
              col_options := None;
              col_validation :=
                Some {| required := Some true; vmin := None; vmax := None;
                        pattern := None; custom := None |} |}.
    split; [apply list_elem_of_here|]. split; [reflexivity|].
    exists "", "hn". reflexivity.
  - intros Hin. apply Hkept in Hin as (_ & col & Hcol & _ & Hsub).
    apply includes_spec in Hsub. unfold initialColumns in Hcol.
    repeat (apply elem_of_cons in Hcol as [-> | Hcol]);
      [discriminate Hsub .. | by apply elem_of_nil in Hcol].
Defined.

(** ** Numeric filters *)

Lemma IsLessThan_NaN (x y : JS.number) :
  x = JS.NaN ∨ y = JS.NaN → JS.IsLessThan x y = None.
Proof. intros [-> | ->]; [done | by destruct x]. Qed.

Lemma compare_NaN (x y : JS.number) :
  x = JS.NaN ∨ y = JS.NaN →
  JS.gt x y = false ∧ JS.lt x y = false ∧
  JS.ge x y = false ∧ JS.le x y = false.
Proof.
  intros H. unfold JS.gt, JS.lt, JS.ge, JS.le.
  rewrite (IsLessThan_NaN x y) by done.
  rewrite (IsLessThan_NaN y x) by tauto. done.
Qed.

Lemma filter_rejecting_all {A : Type} (p : A → bool) (xs : list A) :
  (∀ x, p x = false) → List.filter p xs = [].
Proof.
  intros Hp. induction xs as [|x xs IH]; [done|]. simpl. by rewrite Hp.
Qed.

Lemma between_NaN_bound (row : TableRow) (filter : ColumnFilter) :
  f_operator filter = between →
  row_number row filter = JS.NaN ∨ primary_number filter = JS.NaN ∨
  secondary_number filter = JS.NaN →
  TableManager.filter_passes row filter = false.
Proof.
  intros Hop Hnan. unfold TableManager.filter_passes. rewrite Hop.
  fold (row_number row filter) (primary_number filter)
    (secondary_number filter).
  apply andb_false_iff. destruct Hnan as [Hv | [Ha | Hb]].
  - left.
    by apply (compare_NaN (row_number row filter) (primary_number filter));
      left.
  - left.
    by apply (compare_NaN (row_number row filter) (primary_number filter));
      right.
  - right.
    by apply (compare_NaN (row_number row filter) (secondary_number filter));
      right.
Qed.

(** C8.  A [greaterThan], [lessThan] or [between] filter compares the numbers
    the row value and the filter value(s) coerce to, and a comparison with an
    operand that coerces to [NaN] is false; so a [between] filter whose
    primary or secondary value coerces to [NaN] lets no row through. *)
Theorem numeric_filters_reject_NaN (row : TableRow) (filter : ColumnFilter) :
  let v := row_number row filter in
  let a := primary_number filter in
  let b := secondary_number filter in
  (f_operator filter = greaterThan →
     TableManager.filter_passes row filter = JS.gt v a
     ∧ (v = JS.NaN ∨ a = JS.NaN →
        TableManager.filter_passes row filter = false))
  ∧ (f_operator filter = lessThan →
     TableManager.filter_passes row filter = JS.lt v a
     ∧ (v = JS.NaN ∨ a = JS.NaN →
        TableManager.filter_passes row filter = false))
  ∧ (f_operator filter = between →
     TableManager.filter_passes row filter = JS.ge v a && JS.le v b
     ∧ (v = JS.NaN ∨ a = JS.NaN ∨ b = JS.NaN →
        TableManager.filter_passes row filter = false)
     ∧ (a = JS.NaN ∨ b = JS.NaN →
        ∀ rows columns search filters,
          filter ∈ filters →
          TableManager.filterRows rows columns search filters = [])).
Proof.
  intros v a b. subst v a b. split; [|split]; intros Hop.
  - unfold TableManager.filter_passes. rewrite Hop.
    split; [done|]. intros Hnan.
    exact (proj1 (compare_NaN (row_number row filter) (primary_number filter)
                    Hnan)).
  - unfold TableManager.filter_passes. rewrite Hop.
    split; [done|]. intros Hnan.
    exact (proj1 (proj2 (compare_NaN (row_number row filter)
                           (primary_number filter) Hnan))).
  - split; [unfold TableManager.filter_passes; by rewrite Hop|].
    split; [by apply between_NaN_bound|].
    intros Hnan rows columns search filters Hin.
    unfold TableManager.filterRows.
    destruct filters as [|f fs]; [by apply elem_of_nil in Hin|].
    cbn [length Nat.ltb Nat.leb]. apply filter_rejecting_all. intros r.
    apply not_true_is_false. intros Hall.
    rewrite forallb_forall in Hall.
    specialize (Hall filter ltac:(by apply list_elem_of_In)).
    rewrite between_NaN_bound in Hall; [done | done | tauto].
Qed.

Lemma numeric_filters_reject_NaN_witness :
  let row30 :=
    {| row_id := "r1"; row_fields := {[ "age" := JS.Num (JS.of_Z 30) ]} |} in
  let filter :=
    {| f_column := "age"; f_operator := between;
       f_value := JS.Str "ten"; f_value2 := Some (JS.Str "40") |} in
  TableManager.filterRows [row30] initialColumns "" [filter] = [].
Proof.
  intros row30 filter.
  apply (proj2 (proj2 (numeric_filters_reject_NaN row30 filter))).
  - reflexivity.
  - left. reflexivity.
  - apply list_elem_of_here.
Defined.

(** A blank string is not such a value: it coerces to 0, and a [between]
    filter with a blank bound compares against 0. *)
Example between_blank_bound :
  let row5 :=
    {| row_id := "r1"; row_fields := {[ "age" := JS.Num (JS.of_Z 5) ]} |} in
  let filter :=
    {| f_column := "age"; f_operator := between;
       f_value := JS.Str ""; f_value2 := Some (JS.Str "10") |} in
  primary_number filter = JS.Finite 0 0
  ∧ TableManager.filterRows [row5] initialColumns "" [filter] = [row5].
Proof. split; reflexivity. Qed.

(** ** Saved views *)

Lemma find_app_fresh {A : Type} (p : A → bool) (xs : list A) (x : A) :
  (∀ y, y ∈ xs → p y = false) → p x = true →
  List.find p (xs ++ [x]) = Some x.
Proof.
  intros Hxs Hx. induction xs as [|y ys IH]; simpl.
  - by rewrite Hx.
  - rewrite (Hxs y) by apply list_elem_of_here.
    apply IH. intros z Hz. apply Hxs. by apply list_elem_of_further.
Qed.

Lemma find_app_found {A : Type} (p : A → bool) (xs ys : list A) (x : A) :
  List.find p xs = Some x → List.find p (xs ++ ys) = Some x.
Proof.
  induction xs as [|y xs IH]; simpl; [done|]. by destruct (p y).
Qed.

Lemma find_absent {A : Type} (p : A → bool) (xs : list A) :
  (∀ y, y ∈ xs → p y = false) → List.find p xs = None.
Proof.
  intros Hxs. induction xs as [|y ys IH]; simpl; [done|].
  rewrite (Hxs y) by apply list_elem_of_here.
  apply IH. intros z Hz. apply Hxs. by apply list_elem_of_further.
Qed.

Lemma reducer_keeps_views clock action state :
  keeps_views action = true →
  savedViews (reducer clock action state) = savedViews state.
Proof.
  destruct action; simpl; try done; intros _.
  - unfold toggleRowSelection. by case_match.
  - unfold logActivity. by case_match.
  - unfold loadView. by case_match.
Qed.

Lemma run_keeps_views (ds : list (Clock * Action)) (state : TableState) :
  Forall (λ d, keeps_views d.2 = true) ds →
  savedViews (run ds state) = savedViews state.
Proof.
  intros Hds. revert state.
  induction Hds as [|[c a] ds Ha Hds IH]; intros state; [done|].
  rewrite run_cons, IH. by apply reducer_keeps_views.
Qed.

Lemma query_mutation_keeps_views (action : Action) :
  query_mutation action = true → keeps_views action = true.
Proof. by destruct action. Qed.

Lemma loadView_found (id : string) (view : SavedView) (state : TableState) :
  List.find (fun v => String.eqb (view_id v) id) (savedViews state)
  = Some view →
  let restored := loadView id state in
  columns restored = view_columns view ∧ filters restored = view_filters view
  ∧ sort restored = view_sort view ∧ search restored = view_search view
  ∧ page restored = 0 ∧ rows restored = rows state
  ∧ selectedRows restored = selectedRows state
  ∧ pageSize restored = pageSize state.
Proof. intros Hfind. unfold loadView. by rewrite Hfind. Qed.

Lemma loadView_saved (clock : Clock) (payload : ViewPayload)
  (ds : list (Clock * Action)) (state : TableState) :
  Forall (λ d, keeps_views d.2 = true) ds →
  (∀ v, v ∈ savedViews state → view_id v ≠ now_toString clock) →
  List.find (fun v => String.eqb (view_id v) (now_toString clock))
    (savedViews (run ds (saveView clock payload state)))
  = Some (new_view clock payload).
Proof.
  intros Hds Hfresh. rewrite run_keeps_views by done.
  cbn [saveView savedViews with_savedViews]. apply find_app_fresh.
  - intros v Hv. apply String.eqb_neq. by apply Hfresh.
  - apply String.eqb_refl.
Qed.

(** C4, as amended.  [saveView] names the view after the clock and [loadView]
    takes the first view with the identity asked for.  So: a view saved under
    an identity no earlier view bears, then any run of mutations of the live
    columns, filters, sort and search, then [loadView] of that identity:
    columns, filters, sort and search are those of the saved payload, the page
    is 0, rows and selection (and the page size) are those before the load.
    Loading an identity no saved view bears changes nothing. *)
Theorem saved_view_round_trip :
  (∀ state clock payload (mutations : list (Clock * Action)),
     Forall (λ d, query_mutation d.2 = true) mutations →
     (∀ v, v ∈ savedViews state → view_id v ≠ now_toString clock) →
     let live := run mutations (saveView clock payload state) in
     let restored := loadView (now_toString clock) live in
     columns restored = vp_columns payload
     ∧ filters restored = vp_filters payload
     ∧ sort restored = vp_sort payload
     ∧ search restored = vp_search payload
     ∧ page restored = 0
     ∧ rows restored = rows live
     ∧ selectedRows restored = selectedRows live
     ∧ pageSize restored = pageSize live)
  ∧ (∀ state id,
       (∀ v, v ∈ savedViews state → view_id v ≠ id) →
       loadView id state = state).
Proof.
  split.
  - intros state clock payload mutations Hmut Hfresh live restored.
    subst live restored.
    apply (loadView_found _ (new_view clock payload)).
    apply loadView_saved; [|done].
    eapply Forall_impl; [exact Hmut|].
    intros d. apply query_mutation_keeps_views.
  - intros state id Habsent. unfold loadView.
    rewrite find_absent; [done|].
    intros v Hv. apply String.eqb_neq. by apply Habsent.
Qed.

Lemma saved_view_round_trip_witness :
  let clock := {| now := 1700000000000; iso := "2023-11-14T22:13:20.000Z" |} in
  let adults :=
    {| f_column := "age"; f_operator := greaterThan;
       f_value := JS.Num (JS.of_Z 18); f_value2 := None |} in
  let payload :=
    {| vp_name := "Adults"; vp_columns := initialColumns;
       vp_filters := [adults]; vp_sort := None; vp_search := "jo" |} in
  let mutations :=
    [ (clock, SetSearch "mary"); (clock, RemoveFilter 0);
      (clock, SetSort (Some {| sort_column := "age";
                               sort_direction := desc |}));
      (clock, SetColumns []) ] in
  let live := run mutations (saveView clock payload initialState) in
  filters (loadView "1700000000000" live) = [adults]
  ∧ search (loadView "1700000000000" live) = "jo"
  ∧ loadView "42" initialState = initialState.
Proof.
  intros clock adults payload mutations live.
  destruct saved_view_round_trip as [Hround Hnoop].
  destruct (Hround initialState clock payload mutations)
    as (_ & Hfilters & _ & Hsearch & _).
  - subst mutations. repeat constructor.
  - intros v Hv. simpl in Hv. by apply elem_of_nil in Hv.
  - split; [exact Hfilters|]. split; [exact Hsearch|].
    apply Hnoop. intros v Hv. simpl in Hv. by apply elem_of_nil in Hv.
Defined.

(** C4 as stated fails when the clock gives an identity an earlier view
    already bears: the load restores the earlier view, not the one saved. *)
Lemma saved_view_round_trip_counterexample :
  let clock := {| now := 1700000000000; iso := "2023-11-14T22:13:20.000Z" |} in
  let earlier :=
    {| view_id := "1700000000000"; view_name := "Earlier";
       view_columns := []; view_filters := []; view_sort := None;
       view_search := "mary"; view_timestamp := "2023-11-14T22:13:20.000Z" |} in
  let state := with_savedViews [earlier] initialState in
  let payload :=
    {| vp_name := "Later"; vp_columns := initialColumns;
       vp_filters := []; vp_sort := None; vp_search := "jo" |} in
  let live := run [(clock, SetSearch "x")] (saveView clock payload state) in
  let restored := loadView (now_toString clock) live in
  search restored = "mary" ∧ search restored ≠ vp_search payload
  ∧ columns restored ≠ vp_columns payload.
Proof. vm_compute. repeat split; discriminate. Qed.

(** What the save handler captures is the live query state: after the handler
    and any run of query mutations, loading the view gives back the columns,
    filters, sort and search the state had when the handler ran. *)
Lemma handleSaveCurrentView_round_trip (viewName : string)
  (clock1 clock2 : Clock) (state : TableState)
  (mutations : list (Clock * Action)) :
  JS.trim viewName ≠ "" →
  Forall (λ d, query_mutation d.2 = true) mutations →
  (∀ v, v ∈ savedViews state → view_id v ≠ now_toString clock1) →
  let live :=
    run mutations
      (run (SavedViews.handleSaveCurrentView viewName clock1 clock2 state)
         state) in
  let restored := loadView (now_toString clock1) live in
  columns restored = columns state ∧ filters restored = filters state
  ∧ sort restored = sort state ∧ search restored = search state
  ∧ page restored = 0.
Proof.
  intros Hname Hmut Hfresh live restored. subst live restored.
  unfold SavedViews.handleSaveCurrentView.
  apply String.eqb_neq in Hname. rewrite Hname.
  set (payload := {| vp_name := JS.trim viewName; vp_columns := columns state;
                     vp_filters := filters state; vp_sort := sort state;
                     vp_search := search state |}).
  set (logp := {| pl_action := Create; pl_rowId := None;
                  pl_details := "Saved view: " +:+ viewName |}).
  change (run mutations (run [(clock1, SaveView payload);
                              (clock2, LogActivity logp)] state))
    with (run ((clock2, LogActivity logp) :: mutations)
            (saveView clock1 payload state)).
  pose proof (loadView_found (now_toString clock1) (new_view clock1 payload)
                (run ((clock2, LogActivity logp) :: mutations)
                   (saveView clock1 payload state))) as Hload.
  destruct Hload as (Hc & Hf & Hso & Hse & Hp & _).
  { apply loadView_saved; [|done]. constructor; [done|].
    eapply Forall_impl; [exact Hmut|].
    intros d. apply query_mutation_keeps_views. }
  done.
Qed.

(** ** Duplicate selected *)

Lemma filter_selected (ids : list string) (rs : list TableRow) :
  List.filter (fun row => JS.array_includes ids (row_id row)) rs
  = filter (λ row, row_id row ∈ ids) rs.
Proof.
  induction rs as [|row rs IH]; [done|].
  simpl. rewrite filter_cons.
  destruct (JS.array_includes ids (row_id row)) eqn:Hinc.
  - apply array_includes_elem_of in Hinc.
    rewrite decide_True by done. by f_equal.
  - apply array_includes_not_elem_of in Hinc.
    by rewrite decide_False.
Qed.

Lemma run_addRows (clock : Clock) (new_rows : list TableRow)
  (state : TableState) :
  run (List.map (fun row => (clock, AddRow row)) new_rows) state
  = with_rows (rows state ++ new_rows) state.
Proof.
  revert state. induction new_rows as [|row rs IH]; intros state.
  - simpl. rewrite app_nil_r. by destruct state.
  - cbn [List.map]. rewrite run_cons. cbn [reducer].
    rewrite IH. unfold addRow. cbn [rows with_rows].
    by rewrite <- app_assoc.
Qed.

Lemma duplicate_fields (fresh : string) (row : TableRow) :
  row_id (BulkActions.duplicate fresh row) = fresh
  ∧ get (BulkActions.duplicate fresh row) "name"
    = JS.Str (JS.ToString (get row "name") +:+ " (Copy)")
  ∧ ∀ key, key ≠ "id" → key ≠ "name" →
           get (BulkActions.duplicate fresh row) key = get row key.
Proof.
  split; [done|]. split.
  - unfold get, BulkActions.duplicate, spread. cbn [row_fields part_fields].
    change (String.eqb "name" "id") with false. cbv iota.
    rewrite lookup_union_l'; [by rewrite lookup_singleton_eq|].
    rewrite lookup_singleton_eq. by eexists.
  - intros key Hid Hname. unfold get, BulkActions.duplicate, spread.
    cbn [row_fields part_fields].
    destruct (String.eqb key "id") eqn:Hkey.
    + apply String.eqb_eq in Hkey. done.
    + rewrite lookup_union_r; [done|]. by apply lookup_singleton_ne.
Qed.

(** C3, as amended.  The duplicate-selected handler appends, for each row
    whose identity is selected and in row order, one new row: the identity is
    the one generated for it, the name is the row's name followed by
    [" (Copy)"], every other field is the row's.  It then empties the
    selection. *)
Theorem handleBulkDuplicate_copies_then_clears (uuidv4 : nat → string)
  (clock : Clock) (state : TableState) :
  let selectedRowsData :=
    filter (λ row, row_id row ∈ selectedRows state) (rows state) in
  let state' :=
    run (BulkActions.handleBulkDuplicate uuidv4 clock state) state in
  rows state'
  = rows state
    ++ imap (λ i row, BulkActions.duplicate (uuidv4 i) row) selectedRowsData
  ∧ (∀ fresh row,
       row_id (BulkActions.duplicate fresh row) = fresh
       ∧ get (BulkActions.duplicate fresh row) "name"
         = JS.Str (JS.ToString (get row "name") +:+ " (Copy)")
       ∧ ∀ key, key ≠ "id" → key ≠ "name" →
                get (BulkActions.duplicate fresh row) key = get row key)
  ∧ selectedRows state' = [].
Proof.
  intros selectedRowsData state'. subst selectedRowsData state'.
  unfold BulkActions.handleBulkDuplicate.
  rewrite run_app, run_addRows, filter_selected.
  split; [|split].
  - simpl. by rewrite logActivity_rows.
  - apply duplicate_fields.
  - reflexivity.
Qed.

(** C3 as stated fails: one selected row, and after the handler the
    selection is empty, not the one before. *)
Lemma handleBulkDuplicate_counterexample :
  let clock := {| now := 1700000000000; iso := "2023-11-14T22:13:20.000Z" |} in
  let john :=
    {| row_id := "r1"; row_fields := {[ "name" := JS.Str "John" ]} |} in
  let state := with_selectedRows ["r1"] (with_rows [john] initialState) in
  let state' :=
    run (BulkActions.handleBulkDuplicate (fun _ => "fresh-1") clock state)
      state in
  selectedRows state ≠ []
  ∧ selectedRows state' = []
  ∧ list_to_set (selectedRows state')
    ≠@{gset string} list_to_set (selectedRows state).
Proof.
  intros clock john state state'.
  split; [discriminate|]. split; [reflexivity|].
  intros Heq. assert ("r1" ∈@{gset string} ∅) as Hin.
  { change (∅ : gset string) with (list_to_set (selectedRows state')
                                    : gset string).
    rewrite Heq. apply elem_of_list_to_set. apply list_elem_of_here. }
  by apply not_elem_of_empty in Hin.
Qed.

(** ** Emptiness filters *)

(** What the [isEmpty] case of [filterRows] computes: falsy, or a string
    representation that trims to nothing. *)
Lemma isEmpty_falsy_or_blank (row : TableRow) (filter : ColumnFilter) :
  f_operator filter = isEmpty →
  TableManager.filter_passes row filter = true
  ↔ JS.ToBoolean (get row (f_column filter)) = false
    ∨ JS.trim (JS.ToString (get row (f_column filter))) = "".
Proof.
  intros Hop. unfold TableManager.filter_passes. rewrite Hop.
  rewrite orb_true_iff, negb_true_iff, String.eqb_eq. done.
Qed.

(** In [filterRows], [isNotEmpty] accepts exactly what [isEmpty] rejects. *)
Lemma isNotEmpty_complement (row : TableRow) (column : string)
  (v1 v2 : JS.value) (w1 w2 : option JS.value) :
  TableManager.filter_passes row
    {| f_column := column; f_operator := isNotEmpty;
       f_value := v1; f_value2 := w1 |}
  = negb (TableManager.filter_passes row
            {| f_column := column; f_operator := isEmpty;
               f_value := v2; f_value2 := w2 |}).
Proof.
  unfold TableManager.filter_passes. cbn.
  by rewrite negb_orb, negb_involutive.
Qed.

Lemma export_isEmpty_spec (row : TableRow) (filter : ColumnFilter) :
  f_operator filter = isEmpty →
  AdvancedExport.filter_passes row filter = true
  ↔ spec_empty (get row (f_column filter)).
Proof.
  intros Hop. unfold AdvancedExport.filter_passes, spec_empty. rewrite Hop.
  rewrite !orb_true_iff, !bool_decide_eq_true, String.eqb_eq. tauto.
Qed.

(** Falsy values: [null], [undefined], the falsy values that are not empty,
    and the empty string. *)
Lemma negb_ToBoolean (v : JS.value) :
  negb (JS.ToBoolean v)
  = bool_decide (v = JS.Null) || bool_decide (v = JS.Undefined)
    || falsy_nonempty v || bool_decide (v = JS.Str "").
Proof.
  destruct v as [| |[|]|[|neg|m e]|s]; try done.
  - simpl. by rewrite negb_involutive, orb_false_r.
  - by destruct s.
Qed.

Lemma empty_string_blank (v : JS.value) :
  bool_decide (v = JS.Str "") = true →
  String.eqb (JS.trim (JS.ToString v)) "" = true.
Proof. intros Hv. apply bool_decide_eq_true in Hv. by subst v. Qed.

(** The two paths differ by the falsy values that are not empty. *)
Lemma filter_passes_export (row : TableRow) (filter : ColumnFilter) :
  TableManager.filter_passes row filter
  = match f_operator filter with
    | isEmpty =>
        AdvancedExport.filter_passes row filter
        || falsy_nonempty (get row (f_column filter))
    | isNotEmpty =>
        AdvancedExport.filter_passes row filter
        && negb (falsy_nonempty (get row (f_column filter)))
    | _ => AdvancedExport.filter_passes row filter
    end.
Proof.
  unfold TableManager.filter_passes, AdvancedExport.filter_passes.
  pose proof (negb_ToBoolean (get row (f_column filter))) as Hfalsy.
  pose proof (empty_string_blank (get row (f_column filter))) as Hblank.
  destruct (f_operator filter); try done.
  - rewrite Hfalsy.
    destruct (bool_decide (get row (f_column filter) = JS.Null)),
      (bool_decide (get row (f_column filter) = JS.Undefined)),
      (falsy_nonempty (get row (f_column filter))),
      (bool_decide (get row (f_column filter) = JS.Str ""));
      try done; try (by rewrite (Hblank eq_refl));
      by (cbn; rewrite ?orb_true_r, ?orb_false_r).
  - rewrite <- (negb_involutive (JS.ToBoolean _)), Hfalsy.
    destruct (bool_decide (get row (f_column filter) = JS.Null)),
      (bool_decide (get row (f_column filter) = JS.Undefined)),
      (falsy_nonempty (get row (f_column filter))),
      (bool_decide (get row (f_column filter) = JS.Str ""));
      try done; try (by rewrite (Hblank eq_refl));
      by (cbn; rewrite ?andb_true_r, ?andb_false_r).
Qed.

(** [isEmpty] in [filterRows] accepts what is empty in the words of the
    specification, and the falsy values that are not. *)
Lemma isEmpty_accepts (row : TableRow) (filter : ColumnFilter) :
  f_operator filter = isEmpty →
  TableManager.filter_passes row filter = true
  ↔ spec_empty (get row (f_column filter))
    ∨ falsy_nonempty (get row (f_column filter)) = true.
Proof.
  intros Hop. rewrite filter_passes_export, Hop, orb_true_iff.
  by rewrite export_isEmpty_spec.
Qed.

(** C1 at the failing inputs.  The number 0 and the boolean [false] are
    neither [null] nor [undefined] and their string representations, ["0"]
    and ["false"], do not trim to the empty string; [filterRows] nevertheless
    accepts both under [isEmpty] and rejects both under [isNotEmpty], where
    the export dialog's copy of the filter does the opposite. *)
Theorem isEmpty_accepts_zero_and_false :
  let emptyAge :=
    {| f_column := "age"; f_operator := isEmpty;
       f_value := JS.Str ""; f_value2 := None |} in
  let notEmptyAge :=
    {| f_column := "age"; f_operator := isNotEmpty;
       f_value := JS.Str ""; f_value2 := None |} in
  let zero :=
    {| row_id := "r1"; row_fields := {[ "age" := JS.Num (JS.of_Z 0) ]} |} in
  let no :=
    {| row_id := "r2"; row_fields := {[ "age" := JS.Bool false ]} |} in
  (get zero "age" = JS.Num (JS.of_Z 0) ∧ get no "age" = JS.Bool false)
  ∧ (¬ spec_empty (get zero "age") ∧ ¬ spec_empty (get no "age"))
  ∧ (TableManager.filter_passes zero emptyAge = true
     ∧ TableManager.filter_passes no emptyAge = true)
  ∧ (TableManager.filter_passes zero notEmptyAge = false
     ∧ TableManager.filter_passes no notEmptyAge = false)
  ∧ TableManager.filterRows [zero; no] initialColumns "" [emptyAge]
    = [zero; no]
  ∧ (AdvancedExport.filter_passes zero emptyAge = false
     ∧ AdvancedExport.filter_passes no emptyAge = false).
Proof.
  intros emptyAge notEmptyAge zero no.
  split; [by split|].
  split.
  { split; intros [H | [H | H]]; vm_compute in H; discriminate. }
  repeat split; reflexivity.
Qed.

(** ** Export of the filtered rows *)

Lemma forallb_ext_in {A : Type} (f g : A → bool) (xs : list A) :
  (∀ x, x ∈ xs → f x = g x) → forallb f xs = forallb g xs.
Proof.
  intros Hfg. induction xs as [|x xs IH]; [done|]. simpl.
  rewrite (Hfg x) by apply list_elem_of_here. f_equal.
  apply IH. intros y Hy. apply Hfg. by apply list_elem_of_further.
Qed.

Lemma filter_accepting_all {A : Type} (p : A → bool) (xs : list A) :
  (∀ x, p x = true) → List.filter p xs = xs.
Proof.
  intros Hp. induction xs as [|x xs IH]; [done|]. simpl.
  rewrite Hp. by f_equal.
Qed.

(** Where no emptiness filter meets a falsy value that is not empty, the
    export of the filtered rows is what [filterRows] gives. *)
Lemma export_filtered_agrees (state : TableState) :
  (∀ row filter,
     row ∈ rows state → filter ∈ filters state →
     f_operator filter = isEmpty ∨ f_operator filter = isNotEmpty →
     falsy_nonempty (get row (f_column filter)) = false) →
  (AdvancedExport.getExportData AdvancedExport.Filtered state).1
  = TableManager.filterRows (rows state) (columns state) (search state)
      (filters state).
Proof.
  intros Hsafe.
  unfold AdvancedExport.getExportData, TableManager.filterRows.
  cbn [fst].
  fold (TableManager.search_matches (columns state)
          (JS.toLowerCase (search state))).
  set (searched :=
         if negb (String.eqb (search state) "")
         then List.filter
                (TableManager.search_matches (columns state)
                   (JS.toLowerCase (search state)))
                (rows state)
         else rows state).
  assert (∀ row, row ∈ searched → row ∈ rows state) as Hsub.
  { subst searched. intros row. case_match; [|done].
    rewrite elem_of_List_filter. tauto. }
  destruct (filters state) as [|f fs] eqn:Hfilters.
  - simpl. by apply filter_accepting_all.
  - cbn [length Nat.ltb Nat.leb].
    apply filter_ext_in. intros row Hrow.
    apply list_elem_of_In, Hsub in Hrow.
    apply forallb_ext_in. intros filter Hfilter.
    rewrite filter_passes_export.
    destruct (f_operator filter) eqn:Hop; try done.
    + rewrite (Hsafe row filter); [|done|done|tauto].
      by rewrite orb_false_r.
    + rewrite (Hsafe row filter); [|done|done|tauto].
      by rewrite andb_true_r.
Qed.

(** C2 at the failing input.  One row whose age is the number 0 and one
    [isEmpty] filter on the age: [filterRows] keeps the row, the export under
    scope [Filtered] has no row. *)
Theorem export_filtered_differs_on_zero :
  let emptyAge :=
    {| f_column := "age"; f_operator := isEmpty;
       f_value := JS.Str ""; f_value2 := None |} in
  let zero :=
    {| row_id := "r1"; row_fields := {[ "age" := JS.Num (JS.of_Z 0) ]} |} in
  let state := with_filters [emptyAge] (with_rows [zero] initialState) in
  TableManager.filterRows (rows state) (columns state) (search state)
    (filters state) = [zero]
  ∧ (AdvancedExport.getExportData AdvancedExport.Filtered state).1 = [].
Proof. intros emptyAge zero state. split; reflexivity. Qed.

(** * Further properties of the code *)

(** ** The query pipeline as a whole *)

Lemma List_filter_sublist {A : Type} (p : A → bool) (xs : list A) :
  List.filter p xs `sublist_of` xs.
Proof.
  induction xs as [|x xs IH]; [done|]. simpl.
  destruct (p x); [by apply sublist_skip | by apply sublist_cons].
Qed.

Lemma List_filter_filter {A : Type} (p q : A → bool) (xs : list A) :
  List.filter q (List.filter p xs) = List.filter (λ x, p x && q x) xs.
Proof.
  induction xs as [|x xs IH]; [done|]. simpl.
  destruct (p x); simpl; [destruct (q x)|]; by rewrite ?IH.
Qed.

(** The filter stage alone, as [filterRows] runs it: skipped for an empty
    filter list, which is the same as running it. *)
Lemma filter_stage (filters : list ColumnFilter) (xs : list TableRow) :
  (if (0 <? length filters)%nat
   then List.filter (λ row, forallb (TableManager.filter_passes row) filters)
          xs
   else xs)
  = List.filter (λ row, forallb (TableManager.filter_passes row) filters) xs.
Proof.
  destruct filters as [|f fs]; [|done]. simpl.
  symmetry. by apply filter_accepting_all.
Qed.

(** [filterRows] as two filters, one after the other. *)
Lemma filterRows_stages (rows : list TableRow) (columns : list TableColumn)
  (search : string) (filters : list ColumnFilter) :
  TableManager.filterRows rows columns search filters
  = List.filter (λ row, forallb (TableManager.filter_passes row) filters)
      (List.filter
         (λ row, String.eqb search "" ||
                 TableManager.search_matches columns (JS.toLowerCase search)
                   row)
         rows).
Proof.
  unfold TableManager.filterRows. rewrite filter_stage. f_equal.
  destruct (String.eqb search ""); simpl; [|done].
  symmetry. by apply filter_accepting_all.
Qed.

Lemma filterRows_leaves_out (rows : list TableRow)
  (columns : list TableColumn) (search : string)
  (filters : list ColumnFilter) :
  TableManager.filterRows rows columns search filters `sublist_of` rows.
Proof.
  rewrite filterRows_stages.
  etrans; apply List_filter_sublist.
Qed.

(** X1.  Whatever the search text and the filters, what [filterRows] returns
    is a subsequence of the rows it was given: rows are only left out, never
    added, repeated or reordered; in particular it has no more rows, and
    every row of it is a row given. *)
Theorem filterRows_sublist (rows : list TableRow)
  (columns : list TableColumn) (search : string)
  (filters : list ColumnFilter) :
  TableManager.filterRows rows columns search filters `sublist_of` rows
  ∧ (length (TableManager.filterRows rows columns search filters)
     ≤ length rows)%nat
  ∧ ∀ row, row ∈ TableManager.filterRows rows columns search filters →
           row ∈ rows.
Proof.
  pose proof (filterRows_leaves_out rows columns search filters) as Hsub.
  split; [done|]. split; [by apply sublist_length|].
  intros row Hrow. by eapply elem_of_sublist.
Qed.

Lemma forallb_Permutation {A : Type} (p : A → bool) (xs ys : list A) :
  xs ≡ₚ ys → forallb p xs = forallb p ys.
Proof.
  induction 1 as [|x xs ys _ IH|x y xs|xs ys zs _ IH1 _ IH2]; simpl.
  - done.
  - by rewrite IH.
  - by destruct (p x), (p y).
  - by rewrite IH1.
Qed.

(** X2.  The order of the filters, and a filter given twice, make no
    difference: two filter lists with the same members give the same rows. *)
Theorem filterRows_filters_as_set (rows : list TableRow)
  (columns : list TableColumn) (search : string)
  (filters1 filters2 : list ColumnFilter) :
  (∀ f, f ∈ filters1 ↔ f ∈ filters2) →
  TableManager.filterRows rows columns search filters1
  = TableManager.filterRows rows columns search filters2.
Proof.
  intros Hsame. rewrite !filterRows_stages.
  apply filter_ext. intros row.
  apply eq_true_iff_eq. rewrite !forallb_forall.
  setoid_rewrite <- list_elem_of_In.
  split; intros Hall f Hf; apply Hall; by apply Hsame.
Qed.

Lemma filterRows_filters_as_set_witness :
  let adults :=
    {| f_column := "age"; f_operator := greaterThan;
       f_value := JS.Num (JS.of_Z 18); f_value2 := None |} in
  let admins :=
    {| f_column := "role"; f_operator := equals;
       f_value := JS.Str "admin"; f_value2 := None |} in
  let ann :=
    {| row_id := "r1";
       row_fields := {[ "age" := JS.Str "40"; "role" := JS.Str "Admin" ]} |} in
  TableManager.filterRows [ann] initialColumns "" [adults; admins]
  = TableManager.filterRows [ann] initialColumns "" [admins; adults; admins].
Proof.
  intros adults admins ann.
  apply filterRows_filters_as_set.
  intros f. rewrite !elem_of_cons, !elem_of_nil. tauto.
Defined.

(** X3.  The filters compose: running [filterRows] with the filters
    [filters1 ++ filters2] is running it with [filters1] and then filtering
    the result by [filters2]; so a filter added to the list can only take rows
    away, and running [filterRows] again on its own result changes nothing. *)
Theorem filterRows_compose (rows : list TableRow)
  (columns : list TableColumn) (search : string)
  (filters1 filters2 : list ColumnFilter) :
  TableManager.filterRows rows columns search (filters1 ++ filters2)
  = TableManager.filterRows
      (TableManager.filterRows rows columns search filters1) columns ""
      filters2
  ∧ TableManager.filterRows rows columns search (filters1 ++ filters2)
    `sublist_of` TableManager.filterRows rows columns search filters1
  ∧ TableManager.filterRows
      (TableManager.filterRows rows columns search filters1) columns search
      filters1
    = TableManager.filterRows rows columns search filters1.
Proof.
  assert (TableManager.filterRows rows columns search (filters1 ++ filters2)
          = TableManager.filterRows
              (TableManager.filterRows rows columns search filters1) columns
              "" filters2) as Hcompose.
  { rewrite !filterRows_stages. simpl.
    rewrite (filter_accepting_all (λ _ : TableRow, true)); [|done].
    rewrite !List_filter_filter. apply filter_ext. intros row.
    by rewrite forallb_app, andb_assoc. }
  split; [done|]. split.
  - rewrite Hcompose. apply filterRows_leaves_out.
  - rewrite !filterRows_stages, !List_filter_filter.
    apply filter_ext. intros row.
    destruct (String.eqb search "" || _), (forallb _ filters1); done.
Qed.

(** ** The export projector, all scopes *)

Lemma getExportData_rows (scope : AdvancedExport.ExportScope)
  (state : TableState) :
  (AdvancedExport.getExportData scope state).1
  = match scope with
    | AdvancedExport.All | AdvancedExport.Visible => rows state
    | AdvancedExport.Selected =>
        filter (λ row, row_id row ∈ selectedRows state) (rows state)
    | AdvancedExport.Filtered =>
        List.filter
          (λ row, forallb (AdvancedExport.filter_passes row) (filters state))
          (List.filter
             (λ row, String.eqb (search state) "" ||
                     TableManager.search_matches (columns state)
                       (JS.toLowerCase (search state)) row)
             (rows state))
    end.
Proof.
  destruct scope; simpl; try done.
  - rewrite <- filter_selected.
    destruct (selectedRows state) as [|id ids]; [|done]. simpl.
    symmetry. by apply filter_rejecting_all.
  - f_equal. destruct (String.eqb (search state) ""); simpl; [|done].
    symmetry. by apply filter_accepting_all.
Qed.

Lemma getExportData_columns (scope : AdvancedExport.ExportScope)
  (state : TableState) :
  (AdvancedExport.getExportData scope state).2
  = match scope, selectedRows state with
    | AdvancedExport.Selected, [] => []
    | _, _ => List.filter col_visible (columns state)
    end.
Proof.
  destruct scope; simpl; try done.
  by destruct (selectedRows state).
Qed.

(** X4.  Under every scope the rows handed to the encoder are a subsequence
    of the rows of the store and the columns a subsequence of the columns,
    all of them visible; [all] and [visible] give the same projection, and
    [selected] gives exactly the rows whose identity is selected. *)
Theorem getExportData_projection (scope : AdvancedExport.ExportScope)
  (state : TableState) :
  (AdvancedExport.getExportData scope state).1 `sublist_of` rows state
  ∧ (AdvancedExport.getExportData scope state).2 `sublist_of` columns state
  ∧ (∀ col, col ∈ (AdvancedExport.getExportData scope state).2 →
            col_visible col = true)
  ∧ AdvancedExport.getExportData AdvancedExport.All state
    = AdvancedExport.getExportData AdvancedExport.Visible state
  ∧ (AdvancedExport.getExportData AdvancedExport.Selected state).1
    = filter (λ row, row_id row ∈ selectedRows state) (rows state).
Proof.
  split; [|split; [|split; [|split]]].
  - rewrite getExportData_rows. destruct scope; try done.
    + apply sublist_filter.
    + etrans; apply List_filter_sublist.
  - rewrite getExportData_columns.
    destruct scope, (selectedRows state);
      first [apply sublist_nil_l | apply List_filter_sublist].
  - intros col. rewrite getExportData_columns.
    destruct scope, (selectedRows state);
      first [by intros ?%elem_of_nil | rewrite elem_of_List_filter; tauto].
  - reflexivity.
  - apply (getExportData_rows AdvancedExport.Selected).
Qed.

(** X5.  The export is declined, with nothing written, exactly when the
    projection has no row, whatever the format, the file name and the
    options; with an empty selection the scope [selected] is always declined,
    there is no fall back to all rows. *)
Theorem handleExport_declines (format : Handlers.ExportFormat)
  (scope : AdvancedExport.ExportScope) (fileName : string)
  (includeHeaders includeMetadata : bool) (localeNow : string)
  (state : TableState) :
  (Handlers.handleExport format scope fileName includeHeaders
     includeMetadata localeNow state = None
   ↔ (AdvancedExport.getExportData scope state).1 = [])
  ∧ (selectedRows state = [] →
     Handlers.handleExport format AdvancedExport.Selected fileName
       includeHeaders includeMetadata localeNow state = None).
Proof.
  assert (∀ sc,
            Handlers.handleExport format sc fileName includeHeaders
              includeMetadata localeNow state = None
            ↔ (AdvancedExport.getExportData sc state).1 = []) as Hnone.
  { intros sc. unfold Handlers.handleExport.
    destruct (AdvancedExport.getExportData sc state) as [rs cs]. simpl.
    destruct rs as [|r rs]; simpl; [done|]. by destruct format. }
  split; [apply Hnone|].
  intros Hsel. apply Hnone. rewrite getExportData_rows, Hsel.
  rewrite <- filter_selected. by apply filter_rejecting_all.
Qed.

Lemma handleExport_declines_witness :
  let john :=
    {| row_id := "r1"; row_fields := {[ "name" := JS.Str "John" ]} |} in
  let state := with_rows [john] initialState in
  Handlers.handleExport Handlers.csv AdvancedExport.Selected "table_export"
    true false "11/14/2023, 10:13:20 PM" state = None.
Proof.
  intros john state.
  apply (proj2 (handleExport_declines Handlers.csv AdvancedExport.Selected
                  "table_export" true false "11/14/2023, 10:13:20 PM" state)).
  reflexivity.
Defined.

(** X6.  A CSV or PDF export that goes ahead is a rectangular table: one
    header per visible column, one record per projected row, and in every
    record one cell per header; the file takes the name given and the
    extension of the format. *)
Theorem handleExport_table (scope : AdvancedExport.ExportScope)
  (fileName : string) (includeHeaders includeMetadata : bool)
  (localeNow : string) (state : TableState) :
  (AdvancedExport.getExportData scope state).1 ≠ [] →
  let projected := AdvancedExport.getExportData scope state in
  let exported := λ format,
    Handlers.handleExport format scope fileName includeHeaders
      includeMetadata localeNow state in
  (∃ data,
     Handlers.file_content <$> exported Handlers.csv
     = Some (Handlers.CsvFields (List.map col_label projected.2) data)
     ∧ Handlers.file_name <$> exported Handlers.csv
       = Some (fileName +:+ ".csv")
     ∧ length data = length projected.1
     ∧ Forall (λ record, length record = length projected.2) data)
  ∧ (∃ body startY,
       Handlers.file_content <$> exported Handlers.pdf
       = Some (Handlers.PdfTable (List.map col_label projected.2) body startY)
       ∧ Handlers.file_name <$> exported Handlers.pdf
         = Some (fileName +:+ ".pdf")
       ∧ length body = length projected.1
       ∧ Forall (λ record, length record = length projected.2) body).
Proof.
  intros Hrows projected exported. subst projected exported. cbv beta.
  unfold Handlers.handleExport.
  destruct (AdvancedExport.getExportData scope state) as [rs cs].
  simpl in *. destruct rs as [|r rs]; [done|]. cbn [length Nat.eqb].
  split.
  - eexists. split; [reflexivity|]. split; [reflexivity|]. split.
    + by rewrite length_map.
    + apply Forall_forall. intros record Hrec.
      apply list_elem_of_In, in_map_iff in Hrec as (row & <- & _).
      by rewrite length_map.
  - eexists _, _. split; [reflexivity|]. split; [reflexivity|]. split.
    + by rewrite !length_map.
    + apply Forall_forall. intros record Hrec.
      apply list_elem_of_In, in_map_iff in Hrec as (cells & <- & Hcells).
      apply in_map_iff in Hcells as (row & <- & _).
      by rewrite !length_map.
Qed.

Lemma handleExport_table_witness :
  let john :=
    {| row_id := "r1"; row_fields := {[ "name" := JS.Str "John" ]} |} in
  let state := with_rows [john] initialState in
  ∃ data,
    Handlers.file_content
      <$> Handlers.handleExport Handlers.csv AdvancedExport.All "table_export"
            true false "11/14/2023, 10:13:20 PM" state
    = Some (Handlers.CsvFields ["Name"; "Email"; "Age"; "Role"] data)
    ∧ length data = 1%nat.
Proof.
  intros john state.
  destruct (handleExport_table AdvancedExport.All "table_export" true false
              "11/14/2023, 10:13:20 PM" state ltac:(discriminate))
    as [(data & Hcontent & _ & Hlen & _) _].
  exists data. split; [exact Hcontent | exact Hlen].
Defined.

(** ** Row updates *)

Lemma with_rows_same (state : TableState) : with_rows (rows state) state = state.
Proof. by destruct state. Qed.

Lemma update_first_absent (id : string) (changes : PartialRow)
  (rs : list TableRow) :
  (∀ r, r ∈ rs → row_id r ≠ id) → update_first id changes rs = rs.
Proof.
  intros Habsent. induction rs as [|r rs IH]; [done|]. simpl.
  rewrite (proj2 (String.eqb_neq _ _)) by (apply Habsent, list_elem_of_here).
  f_equal. apply IH. intros q Hq. by apply Habsent, list_elem_of_further.
Qed.

Lemma update_first_found (id : string) (changes : PartialRow)
  (pre post : list TableRow) (r : TableRow) :
  row_id r = id → (∀ q, q ∈ pre → row_id q ≠ id) →
  update_first id changes (pre ++ r :: post) = pre ++ spread r changes :: post.
Proof.
  intros Hid Hpre. induction pre as [|q pre IH]; simpl.
  - by rewrite (proj2 (String.eqb_eq _ _) Hid).
  - rewrite (proj2 (String.eqb_neq _ _)) by (apply Hpre, list_elem_of_here).
    f_equal. apply IH. intros q' Hq'. by apply Hpre, list_elem_of_further.
Qed.

Lemma update_first_length (id : string) (changes : PartialRow)
  (rs : list TableRow) :
  length (update_first id changes rs) = length rs.
Proof.
  induction rs as [|r rs IH]; [done|]. simpl.
  destruct (String.eqb (row_id r) id); simpl; by rewrite ?IH.
Qed.

(** What a spread row reads: the new identity if the changes carry one, the
    changed value under a key the changes carry, the old value elsewhere. *)
Lemma get_spread (row : TableRow) (changes : PartialRow) (key : string) :
  get (spread row changes) key
  = if String.eqb key "id" then JS.Str (default (row_id row) (part_id changes))
    else match part_fields changes !! key with
         | Some v => v
         | None => get row key
         end.
Proof.
  unfold get, spread. cbn [row_id row_fields].
  destruct (String.eqb key "id") eqn:Hkey; [done|].
  rewrite lookup_union.
  by destruct (part_fields changes !! key), (row_fields row !! key).
Qed.

(** X7.  [updateRow] never changes the number of rows; with no row of that
    identity the state is unchanged; otherwise the first row of that identity,
    and only that one, becomes its spread with the changes, where a changed
    key reads the new value and every other key the old one. *)
Theorem updateRow_first_match (id : string) (changes : PartialRow)
  (state : TableState) :
  length (rows (updateRow id changes state)) = length (rows state)
  ∧ ((∀ r, r ∈ rows state → row_id r ≠ id) →
     updateRow id changes state = state)
  ∧ (∀ pre r post,
       rows state = pre ++ r :: post → row_id r = id →
       (∀ q, q ∈ pre → row_id q ≠ id) →
       rows (updateRow id changes state) = pre ++ spread r changes :: post)
  ∧ (∀ r key,
       key ≠ "id" →
       get (spread r changes) key
       = default (get r key) (part_fields changes !! key)).
Proof.
  split; [|split; [|split]].
  - apply update_first_length.
  - intros Habsent. unfold updateRow.
    rewrite update_first_absent by done. apply with_rows_same.
  - intros pre r post Hrows Hid Hpre. unfold updateRow. simpl.
    rewrite Hrows. by apply update_first_found.
  - intros r key Hkey. rewrite get_spread.
    apply String.eqb_neq in Hkey. rewrite Hkey.
    by destruct (part_fields changes !! key).
Qed.

Lemma deleteRow_rows (id : string) (state : TableState) :
  rows (deleteRow id state) = filter (λ r, row_id r ≠ id) (rows state).
Proof.
  unfold deleteRow. simpl.
  induction (rows state) as [|r rs IH]; [done|].
  simpl. rewrite filter_cons.
  destruct (String.eqb (row_id r) id) eqn:Heq; simpl.
  - apply String.eqb_eq in Heq. by rewrite decide_False by (by intros ?).
  - apply String.eqb_neq in Heq. rewrite decide_True by done. by f_equal.
Qed.

(** X8.  [deleteRow] removes every row of the identity given, keeps the
    others in order, and leaves the selection as it is: the rows are those
    [bulkDeleteRows] of that one identity leaves, but an identity that was
    selected is still in the selection after the delete handler, with no row
    behind it.  The handler dispatches nothing without an identity. *)
Theorem deleteRow_keeps_selection (id : string) (clock : Clock)
  (state : TableState) :
  rows (deleteRow id state) = filter (λ r, row_id r ≠ id) (rows state)
  ∧ rows (deleteRow id state) = rows (bulkDeleteRows [id] state)
  ∧ selectedRows (deleteRow id state) = selectedRows state
  ∧ (id ≠ "" →
     let state' := run (Handlers.confirmDelete (Some id) clock) state in
     selectedRows state' = selectedRows state
     ∧ ∀ row, row ∈ rows state' → row_id row ≠ id)
  ∧ Handlers.confirmDelete None clock = []
  ∧ Handlers.confirmDelete (Some "") clock = [].
Proof.
  split; [apply deleteRow_rows|]. split.
  { rewrite deleteRow_rows, bulkDeleteRows_rows.
    apply list_filter_iff. intros r.
    rewrite list_elem_of_singleton. done. }
  split; [done|]. split; [|done].
  intros Hid state'. subst state'. unfold Handlers.confirmDelete.
  apply String.eqb_neq in Hid. rewrite Hid. simpl.
  rewrite logActivity_selectedRows, logActivity_rows.
  split; [done|]. intros row.
  rewrite deleteRow_rows, list_elem_of_filter. tauto.
Qed.

Lemma deleteRow_keeps_selection_witness :
  let clock := {| now := 1700000000000; iso := "2023-11-14T22:13:20.000Z" |} in
  let john :=
    {| row_id := "r1"; row_fields := {[ "name" := JS.Str "John" ]} |} in
  let state := with_selectedRows ["r1"] (with_rows [john] initialState) in
  selectedRows (run (Handlers.confirmDelete (Some "r1") clock) state) = ["r1"].
Proof.
  intros clock john state.
  destruct (deleteRow_keeps_selection "r1" clock state)
    as (_ & _ & _ & Hhandler & _).
  exact (proj1 (Hhandler ltac:(discriminate))).
Defined.

(** ** Bulk edit *)

Lemma get_single_update (row : TableRow) (editField editValue key : string) :
  get (spread row (Handlers.single_update editField editValue)) key
  = if String.eqb key editField then JS.Str editValue else get row key.
Proof.
  rewrite get_spread. unfold Handlers.single_update.
  destruct (String.eqb editField "id") eqn:Hfield.
  - apply String.eqb_eq in Hfield. subst editField. simpl.
    destruct (String.eqb key "id") eqn:Hkey; [done|].
    by rewrite lookup_empty.
  - apply String.eqb_neq in Hfield. simpl.
    destruct (String.eqb key "id") eqn:Hkey.
    + apply String.eqb_eq in Hkey. subst key.
      rewrite (proj2 (String.eqb_neq "id" editField)) by done.
      unfold get. by rewrite String.eqb_refl.
    + destruct (String.eqb key editField) eqn:Hkf.
      * apply String.eqb_eq in Hkf. subst key.
        by rewrite lookup_singleton_eq.
      * apply String.eqb_neq in Hkf.
        by rewrite lookup_singleton_ne.
Qed.

Lemma bulkUpdateRows_rows (ids : list string) (updates : PartialRow)
  (state : TableState) :
  rows (bulkUpdateRows ids updates state)
  = (λ row, if decide (row_id row ∈ ids) then spread row updates else row)
    <$> rows state.
Proof.
  unfold bulkUpdateRows. simpl. apply map_ext. intros row.
  destruct (JS.array_includes ids (row_id row)) eqn:Hinc.
  - apply array_includes_elem_of in Hinc. by rewrite decide_True.
  - apply array_includes_not_elem_of in Hinc. by rewrite decide_False.
Qed.

(** X9.  A bulk edit with a field and a value, both non-empty, gives every
    row whose identity is selected the value, as a string, under the field,
    and changes nothing else: the other keys of those rows, the rows not
    selected, the number and order of rows; it then empties the selection.
    With the field or the value empty nothing is dispatched. *)
Theorem handleBulkEdit_sets_field (editField editValue : string)
  (clock : Clock) (state : TableState) :
  (editField ≠ "" → editValue ≠ "" →
   let state' :=
     run (Handlers.handleBulkEdit editField editValue clock state) state in
   let edited row :=
     spread row (Handlers.single_update editField editValue) in
   rows state'
   = (λ row, if decide (row_id row ∈ selectedRows state) then edited row
             else row) <$> rows state
   ∧ (∀ row, get (edited row) editField = JS.Str editValue)
   ∧ (∀ row key, key ≠ editField → get (edited row) key = get row key)
   ∧ selectedRows state' = [])
  ∧ (editField = "" ∨ editValue = "" →
     Handlers.handleBulkEdit editField editValue clock state = []).
Proof.
  split.
  - intros Hfield Hvalue state' edited. subst state' edited.
    unfold Handlers.handleBulkEdit.
    apply String.eqb_neq in Hfield, Hvalue. rewrite Hfield, Hvalue. simpl.
    rewrite logActivity_rows, logActivity_selectedRows.
    split; [apply bulkUpdateRows_rows|]. split; [|split; [|done]].
    + intros row. by rewrite get_single_update, String.eqb_refl.
    + intros row key Hkey. rewrite get_single_update.
      apply String.eqb_neq in Hkey. by rewrite Hkey.
  - intros [-> | ->]; unfold Handlers.handleBulkEdit; simpl; [done|].
    by rewrite andb_false_r.
Qed.

Lemma handleBulkEdit_sets_field_witness :
  let clock := {| now := 1700000000000; iso := "2023-11-14T22:13:20.000Z" |} in
  let john :=
    {| row_id := "r1"; row_fields := {[ "name" := JS.Str "John" ]} |} in
  let state := with_selectedRows ["r1"] (with_rows [john] initialState) in
  selectedRows
    (run (Handlers.handleBulkEdit "role" "Admin" clock state) state) = []
  ∧ get (spread john (Handlers.single_update "role" "Admin")) "role"
    = JS.Str "Admin".
Proof.
  intros clock john state.
  destruct (proj1 (handleBulkEdit_sets_field "role" "Admin" clock state)
              ltac:(discriminate) ltac:(discriminate))
    as (_ & Hset & _ & Hsel).
  split; [exact Hsel | exact (Hset john)].
Defined.

Lemma updateRow_first_match_witness :
  let john :=
    {| row_id := "r1"; row_fields := {[ "name" := JS.Str "John" ]} |} in
  let twin :=
    {| row_id := "r1"; row_fields := {[ "name" := JS.Str "Twin" ]} |} in
  let changes :=
    {| part_id := None; part_fields := {[ "name" := JS.Str "Jon" ]} |} in
  let state := with_rows [john; twin] initialState in
  rows (updateRow "r1" changes state) = [spread john changes; twin]
  ∧ updateRow "r9" changes state = state.
Proof.
  intros john twin changes state.
  destruct (updateRow_first_match "r1" changes state)
    as (_ & _ & Hfound & _).
  destruct (updateRow_first_match "r9" changes state)
    as (_ & Habsent & _).
  split.
  - apply (Hfound [] john [twin]); [reflexivity | reflexivity |].
    intros q Hq. by apply elem_of_nil in Hq.
  - apply Habsent. intros r Hr. simpl in Hr.
    repeat (apply elem_of_cons in Hr as [-> | Hr]);
      [discriminate .. | by apply elem_of_nil in Hr].
Defined.

(** ** Removing a filter *)

Lemma splice1_in_range {A : Type} (i : nat) (xs : list A) :
  splice1 (Z.of_nat i) xs = delete i xs.
Proof.
  unfold splice1. rewrite (proj2 (Z.ltb_ge _ 0)) by lia.
  rewrite delete_take_drop.
  destruct (decide (i ≤ length xs)%nat) as [Hin | Hout].
  - rewrite Z.min_l by lia. by rewrite Nat2Z.id.
  - rewrite Z.min_r by lia. rewrite Nat2Z.id.
    rewrite !take_ge, !drop_ge by lia. done.
Qed.

Lemma with_filters_same (state : TableState) :
  with_filters (filters state) state = state.
Proof. by destruct state. Qed.

(** X10.  [removeFilter(i)] takes out the filter at index [i] and no other
    when [i] is an index of the list; an index at or past the end removes
    nothing; a negative index counts from the end.  Removing at the index a
    filter was just added at gives back the filters there were. *)
Theorem removeFilter_at_index (i : Z) (state : TableState) :
  let len := Z.of_nat (length (filters state)) in
  (0 ≤ i →
   filters (removeFilter i state) = delete (Z.to_nat i) (filters state))
  ∧ (0 ≤ i < len →
     Z.of_nat (length (filters (removeFilter i state))) = len - 1)
  ∧ (len ≤ i → removeFilter i state = state)
  ∧ (- len ≤ i < 0 →
     filters (removeFilter i state)
     = delete (Z.to_nat (len + i)) (filters state))
  ∧ (∀ f, filters (removeFilter len (addFilter f state)) = filters state).
Proof.
  intros len. subst len. unfold removeFilter.
  cbn [filters with_filters].
  split; [|split; [|split; [|split]]].
  - intros Hi. rewrite <- (Z2Nat.id i) at 1 by done.
    apply splice1_in_range.
  - intros Hi. rewrite <- (Z2Nat.id i) at 1 by lia.
    rewrite splice1_in_range, length_delete.
    + lia.
    + apply lookup_lt_is_Some. lia.
  - intros Hi. rewrite <- (Z2Nat.id i) by lia.
    rewrite splice1_in_range, delete_take_drop.
    rewrite take_ge, drop_ge, app_nil_r by lia. apply with_filters_same.
  - intros Hi. unfold splice1.
    rewrite (proj2 (Z.ltb_lt i 0)) by lia.
    rewrite Z.max_l by lia. by rewrite delete_take_drop.
  - intros f. unfold addFilter. cbn [filters with_filters].
    rewrite splice1_in_range, delete_take_drop.
    rewrite take_app_length, drop_ge, app_nil_r; [done|].
    rewrite length_app. simpl. lia.
Qed.

Lemma removeFilter_at_index_witness :
  let adults :=
    {| f_column := "age"; f_operator := greaterThan;
       f_value := JS.Num (JS.of_Z 18); f_value2 := None |} in
  let admins :=
    {| f_column := "role"; f_operator := equals;
       f_value := JS.Str "admin"; f_value2 := None |} in
  let state := with_filters [adults; admins] initialState in
  filters (removeFilter 0 state) = [admins]
  ∧ removeFilter 2 state = state
  ∧ filters (removeFilter (-1) state) = [adults].
Proof.
  intros adults admins state.
  destruct (removeFilter_at_index 0 state) as (Hat & _).
  destruct (removeFilter_at_index 2 state) as (_ & _ & Hpast & _).
  destruct (removeFilter_at_index (-1) state) as (_ & _ & _ & Hneg & _).
  split; [|split].
  - exact (Hat ltac:(lia)).
  - apply Hpast. simpl. lia.
  - apply Hneg. simpl. lia.
Defined.

(** ** Saved views, further *)

Lemma find_filter_kept {A : Type} (p q : A → bool) (xs : list A) :
  (∀ x, p x = true → q x = true) →
  List.find p (List.filter q xs) = List.find p xs.
Proof.
  intros Hpq. induction xs as [|x xs IH]; [done|]. simpl.
  destruct (q x) eqn:Hq; simpl.
  - by destruct (p x).
  - destruct (p x) eqn:Hp; [|done]. rewrite Hpq in Hq; done.
Qed.

Lemma find_filter_dropped {A : Type} (p q : A → bool) (xs : list A) :
  (∀ x, p x = true → q x = false) →
  List.find p (List.filter q xs) = None.
Proof.
  intros Hpq. apply find_absent. intros y Hy.
  apply elem_of_List_filter in Hy as [_ Hq].
  destruct (p y) eqn:Hp; [|done]. rewrite Hpq in Hq; done.
Qed.

(** X11.  After [deleteSavedView(id)] no view of that identity is left and
    the others are all there; loading that identity then changes nothing and
    the load handler dispatches nothing; loading another identity gives what
    it gave before the delete; the live columns, filters, sort and search are
    untouched by the delete.  After the delete handler, which dispatches
    nothing for an unknown identity, no view bears the identity either. *)
Theorem deleteSavedView_then_load (id : string) (clock : Clock)
  (state : TableState) :
  let state' := deleteSavedView id state in
  (∀ v, v ∈ savedViews state' ↔ v ∈ savedViews state ∧ view_id v ≠ id)
  ∧ loadView id state' = state'
  ∧ SavedViews.handleLoadView id clock state' = []
  ∧ (∀ other, other ≠ id →
       loadView other state' = deleteSavedView id (loadView other state))
  ∧ (columns state', filters state', sort state', search state')
    = (columns state, filters state, sort state, search state)
  ∧ (∀ v, v ∈ savedViews (run (Handlers.handleDeleteView id clock state) state)
          → view_id v ≠ id).
Proof.
  intros state'. subst state'.
  assert (List.find (λ v, String.eqb (view_id v) id)
            (savedViews (deleteSavedView id state)) = None) as Hgone.
  { apply find_filter_dropped. intros v Hv. by rewrite Hv. }
  split; [|split; [|split; [|split; [|split]]]]; cycle 5.
  { intros v. unfold Handlers.handleDeleteView.
    destruct (List.find _ (savedViews state)) as [view|] eqn:Hfind.
    - unfold run. cbn [fold_left reducer].
      assert (∀ p s, savedViews (logActivity clock p s) = savedViews s)
        as Hlog by (intros p s; unfold logActivity; by case_match).
      rewrite Hlog. unfold deleteSavedView. cbn [savedViews with_savedViews].
      rewrite elem_of_List_filter, eqb_neq_negb. tauto.
    - intros Hv. eapply find_none in Hfind; [|by apply list_elem_of_In].
      by apply String.eqb_neq in Hfind. }
  - intros v. unfold deleteSavedView. cbn [savedViews with_savedViews].
    by rewrite elem_of_List_filter, eqb_neq_negb.
  - unfold loadView. by rewrite Hgone.
  - unfold SavedViews.handleLoadView. by rewrite Hgone.
  - intros other Hother. unfold loadView at 1.
    unfold deleteSavedView at 1. cbn [savedViews with_savedViews].
    rewrite find_filter_kept.
    + unfold loadView. by case_match.
    + intros v Hv. apply String.eqb_eq in Hv. rewrite Hv.
      by apply eqb_neq_negb.
  - reflexivity.
Qed.

Lemma loadView_savedViews (id : string) (state : TableState) :
  savedViews (loadView id state) = savedViews state.
Proof. unfold loadView. by case_match. Qed.

(** X12.  Loading a view a second time changes nothing more, and no load
    changes the saved views, the rows, the selection, the page size or the
    activity log. *)
Theorem loadView_idempotent (id : string) (state : TableState) :
  loadView id (loadView id state) = loadView id state
  ∧ savedViews (loadView id state) = savedViews state
  ∧ rows (loadView id state) = rows state
  ∧ selectedRows (loadView id state) = selectedRows state
  ∧ pageSize (loadView id state) = pageSize state
  ∧ activityLog (loadView id state) = activityLog state.
Proof.
  split.
  - unfold loadView at 1. rewrite loadView_savedViews.
    unfold loadView. by case_match.
  - unfold loadView. by case_match.
Qed.

(** X13.  A saved view is never modified: after any action every saved view
    was there before, unchanged, or is the one [saveView] has just built from
    its payload and the clock; and short of [deleteSavedView] the views there
    were are all still there, in order, at the head of the list. *)
Theorem savedViews_immutable (clock : Clock) (action : Action)
  (state : TableState) :
  (∀ v, v ∈ savedViews (reducer clock action state) →
        v ∈ savedViews state
        ∨ ∃ payload, action = SaveView payload ∧ v = new_view clock payload)
  ∧ ((∀ id, action ≠ DeleteSavedView id) →
     savedViews state `prefix_of` savedViews (reducer clock action state)).
Proof.
  split.
  - intros v. destruct action as [| | | | | | | | | | | | | | | |p| |id| | | | |];
      try (rewrite reducer_keeps_views by done; by left).
    + simpl. rewrite elem_of_app, list_elem_of_singleton.
      intros [Hold | ->]; [by left | right; by exists p].
    + simpl. rewrite elem_of_List_filter. intros [Hold _]. by left.
  - intros Hkeep.
    destruct action as [| | | | | | | | | | | | | | | |p| |id| | | | |];
      try (by rewrite reducer_keeps_views).
    + simpl. by apply prefix_app_r.
    + by destruct (Hkeep id).
Qed.

Lemma with_activityLog_same (state : TableState) :
  with_activityLog (activityLog state) state = state.
Proof. by destruct state. Qed.

(** X14.  The activity log is written by [logActivity] alone: every other
    action leaves it as it is, and [logActivity] changes nothing but the log,
    whose earlier entries stay in order behind the new one. *)
Theorem activityLog_written_by_logActivity (clock : Clock) (action : Action)
  (state : TableState) :
  ((∀ payload, action ≠ LogActivity payload) →
   activityLog (reducer clock action state) = activityLog state)
  ∧ (∀ payload,
       logActivity clock payload state
       = with_activityLog
           (take 1000 (new_log clock payload :: activityLog state)) state)
  ∧ (∀ payload,
       tail (activityLog (logActivity clock payload state))
       `prefix_of` activityLog state).
Proof.
  split; [|split].
  - intros Hother. destruct action; simpl; try done.
    + unfold toggleRowSelection. by case_match.
    + by destruct (Hother payload).
    + unfold loadView. by case_match.
  - intros payload. unfold logActivity.
    case_match eqn:Hlen; [done|]. apply Z.ltb_ge in Hlen.
    by rewrite take_ge by lia.
  - intros payload. rewrite logActivity_activityLog. simpl.
    apply prefix_take.
Qed.

(** ** Columns *)

Lemma with_columns_twice (v w : list TableColumn) (state : TableState) :
  with_columns v (with_columns w state) = with_columns v state.
Proof. done. Qed.

Lemma with_columns_same (state : TableState) :
  with_columns (columns state) state = state.
Proof. by destruct state. Qed.

Lemma toggle_visible_twice (col : TableColumn) :
  Handlers.toggle_visible (Handlers.toggle_visible col) = col.
Proof.
  destruct col. unfold Handlers.toggle_visible. simpl.
  by rewrite negb_involutive.
Qed.

(** X15.  Toggling the visibility of a column twice gives back the state;
    one toggle keeps the number, the order, the identities and the labels of
    the columns and flips the visibility of the columns of that identity and
    of no other. *)
Theorem handleToggleColumn_involutive (columnId : string) (clock : Clock)
  (state : TableState) :
  let once := run (Handlers.handleToggleColumn columnId clock state) state in
  let twice := run (Handlers.handleToggleColumn columnId clock once) once in
  twice = state
  ∧ col_id <$> columns once = col_id <$> columns state
  ∧ col_label <$> columns once = col_label <$> columns state
  ∧ (∀ i col,
       columns state !! i = Some col →
       col_visible <$> columns once !! i
       = Some (if bool_decide (col_id col = columnId)
               then negb (col_visible col) else col_visible col)).
Proof.
  intros once twice. subst once twice.
  unfold Handlers.handleToggleColumn, run. simpl. unfold setColumns.
  rewrite with_columns_twice. cbn [columns with_columns].
  split; [|split; [|split]].
  - rewrite <- (with_columns_same state) at 3. f_equal.
    rewrite map_map. rewrite <- (map_id (columns state)) at 2.
    apply map_ext. intros col.
    destruct (String.eqb (col_id col) columnId) eqn:Hid; simpl.
    + by rewrite Hid, toggle_visible_twice.
    + by rewrite Hid.
  - rewrite <- list_fmap_compose. apply list_fmap_ext. intros i col _. simpl.
    by destruct (String.eqb (col_id col) columnId).
  - rewrite <- list_fmap_compose. apply list_fmap_ext. intros i col _. simpl.
    by destruct (String.eqb (col_id col) columnId).
  - intros i col Hcol.
    change (List.map ?f ?l) with (f <$> l).
    rewrite list_lookup_fmap, Hcol. simpl. f_equal.
    destruct (String.eqb (col_id col) columnId) eqn:Hid.
    + apply String.eqb_eq in Hid. by rewrite bool_decide_eq_true_2.
    + apply String.eqb_neq in Hid. by rewrite bool_decide_eq_false_2.
Qed.

Lemma replace_spaces_no_space (in_run : bool) (s : string) :
  Forall (λ c, JS.is_whitespace c = false)
    (String.list_ascii_of_string (Handlers.replace_spaces in_run s)).
Proof.
  revert in_run. induction s as [|c s IH]; intros in_run; simpl; [done|].
  destruct (JS.is_whitespace c) eqn:Hc.
  - destruct in_run; [apply IH|]. simpl. constructor; [done | apply IH].
  - simpl. constructor; [done | apply IH].
Qed.

(** X16.  Adding a column is refused, with an error text and nothing
    dispatched, exactly when the name is blank or some column already has the
    label, case aside; otherwise the column is appended, visible and
    editable, under the trimmed name, with an identity free of white space.
    So labels that differ pairwise, case aside, still do afterwards. *)
Theorem handleAddColumn_keeps_labels_distinct (addColumnName : string)
  (clock : Clock) (state : TableState) :
  let result := Handlers.handleAddColumn addColumnName clock state in
  let dispatched := result.1.1 in
  let taken :=
    ∃ c, c ∈ columns state ∧
         JS.toLowerCase (col_label c)
         = JS.toLowerCase (JS.trim addColumnName) in
  (dispatched = [] ↔ JS.trim addColumnName = "" ∨ taken)
  ∧ (dispatched = [] → result.2 ≠ "" ∧ result.1.2 = addColumnName)
  ∧ (dispatched ≠ [] →
     columns (run dispatched state)
     = columns state ++ [Handlers.newColumn addColumnName]
     ∧ result.2 = "" ∧ result.1.2 = "")
  ∧ (col_label (Handlers.newColumn addColumnName) = JS.trim addColumnName
     ∧ col_visible (Handlers.newColumn addColumnName) = true
     ∧ col_editable (Handlers.newColumn addColumnName) = Some true
     ∧ Forall (λ c, JS.is_whitespace c = false)
         (String.list_ascii_of_string (col_id (Handlers.newColumn addColumnName))))
  ∧ (labels_distinct (columns state) →
     labels_distinct (columns (run dispatched state))).
Proof.
  intros result dispatched taken. subst result dispatched taken.
  unfold Handlers.handleAddColumn.
  destruct (String.eqb (JS.trim addColumnName) "") eqn:Hblank.
  { apply String.eqb_eq in Hblank. simpl.
    repeat split; try done; try tauto.
    apply replace_spaces_no_space. }
  apply String.eqb_neq in Hblank.
  destruct (existsb _ (columns state)) eqn:Htaken.
  { apply existsb_exists in Htaken as (c & Hc & Heq).
    apply String.eqb_eq in Heq. apply list_elem_of_In in Hc. simpl.
    repeat split; try done; try (by right; exists c).
    apply replace_spaces_no_space. }
  simpl. split; [|split; [done|split; [done|split]]].
  - split; [done|]. intros [Hb | (c & Hc & Heq)]; [done|].
    assert (existsb
              (λ c, String.eqb (JS.toLowerCase (col_label c))
                      (JS.toLowerCase (JS.trim addColumnName)))
              (columns state) = true) as Hex.
    { apply existsb_exists. exists c.
      split; [by apply list_elem_of_In | by apply String.eqb_eq]. }
    congruence.
  - repeat split. apply replace_spaces_no_space.
  - unfold labels_distinct. intros Hdistinct.
    rewrite fmap_app. apply NoDup_app. split; [done|]. split.
    + intros label Hlabel Hnew. simpl in Hnew.
      apply list_elem_of_singleton in Hnew. subst label.
      apply list_elem_of_fmap in Hlabel as (c & Heq & Hc).
      assert (existsb
                (λ c, String.eqb (JS.toLowerCase (col_label c))
                        (JS.toLowerCase (JS.trim addColumnName)))
                (columns state) = true) as Hex.
      { apply existsb_exists. exists c.
        split; [by apply list_elem_of_In | by apply String.eqb_eq]. }
      congruence.
    + simpl. apply NoDup_singleton.
Qed.

Lemma handleAddColumn_keeps_labels_distinct_witness :
  let clock := {| now := 1700000000000; iso := "2023-11-14T22:13:20.000Z" |} in
  labels_distinct
    (columns
       (run (Handlers.handleAddColumn "  Home  Town " clock initialState).1.1
          initialState))
  ∧ (Handlers.handleAddColumn " NAME " clock initialState).1.1 = [].
Proof.
  intros clock.
  destruct (handleAddColumn_keeps_labels_distinct "  Home  Town " clock
              initialState) as (_ & _ & _ & _ & Hkeep).
  destruct (handleAddColumn_keeps_labels_distinct " NAME " clock
              initialState) as (Hrefused & _).
  split.
  - apply Hkeep. unfold labels_distinct.
    apply (bool_decide_unpack _). vm_compute. reflexivity.
  - apply Hrefused. right.
    exists {| col_id := "name"; col_label := "Name"; col_visible := true;
              col_editable := Some true; col_type := Some TText;
              col_options := None;
              col_validation :=
                Some {| required := Some true; vmin := None; vmax := None;
                        pattern := None; custom := None |} |}.
    split; [apply list_elem_of_here | reflexivity].
Defined.

(** ** Adding a row *)



Lemma logActivity_with (clock : Clock) (payload : ActivityPayload)
  (state : TableState) :
  logActivity clock payload state
  = with_activityLog
      (take 1000 (new_log clock payload :: activityLog state)) state.
Proof.
  unfold logActivity. case_match eqn:Hlen; [done|].
  apply Z.ltb_ge in Hlen. by rewrite take_ge by lia.
Qed.







(** ** Sorting *)

(** X19.  A click on a column header always leaves a sort in place, on that
    column: descending if the table was sorted ascending on that very column,
    ascending in every other case.  So a second click on the same column
    reverses the direction, the third brings back that of the first, and no
    click brings back the unsorted table; nothing but the sort changes. *)
Theorem handleSort_alternates (columnId : string) (clock : Clock)
  (state : TableState) :
  let click := λ s, run (Handlers.handleSort columnId clock s) s in
  (∃ direction,
     sort (click state)
     = Some {| sort_column := columnId; sort_direction := direction |}
     ∧ (direction = desc ↔
        sort state
        = Some {| sort_column := columnId; sort_direction := asc |})
     ∧ sort (click (click state))
       = Some {| sort_column := columnId;
                 sort_direction :=
                   match direction with asc => desc | desc => asc end |})
  ∧ click (click (click state)) = click state
  ∧ with_sort (sort state) (click state) = state.
Proof.
  intros click. subst click. cbv beta.
  unfold Handlers.handleSort, run. simpl. unfold setSort.
  destruct state as [cs rs se so pg ps ed sel fs lg vs ve sa].
  cbn [sort with_sort].
  destruct so as [[col [|]]|]; simpl;
    try (destruct (String.eqb col columnId) eqn:Hcol; simpl);
    rewrite ?String.eqb_refl; simpl; rewrite ?String.eqb_refl; simpl.
  all: split; [|by split].
  all: try (apply String.eqb_eq in Hcol; subst col).
  all: try (apply String.eqb_neq in Hcol).
  - exists desc. split; [done|]. split; [done|]. done.
  - exists asc. split; [done|]. split; [|done].
    split; [done|]. intros [=]. congruence.
  - exists asc. split; [done|]. split; [|done]. split; done.
  - exists asc. split; [done|]. split; [|done]. split; done.
  - exists asc. split; [done|]. split; [|done]. split; done.
Qed.

Section array_sort.
Context {A : Type} (comparefn : A → A → Z).

Lemma sort_insert_Permutation (x : A) (xs : list A) :
  Handlers.sort_insert comparefn x xs ≡ₚ x :: xs.
Proof.
  induction xs as [|y ys IH]; simpl; [done|].
  destruct (0 <? comparefn x y); [|done].
  rewrite IH. apply Permutation_swap.
Qed.

Lemma array_sort_Permutation (xs : list A) :
  Handlers.array_sort comparefn xs ≡ₚ xs.
Proof.
  induction xs as [|x xs IH]; simpl; [done|].
  by rewrite sort_insert_Permutation, IH.
Qed.

(** For elements on which the compare function is a consistent ordering
    [R], the result is in that order. *)
Context (R : relation A) (P : A → Prop).
Hypothesis after :
  ∀ x y, P x → P y → (0 <? comparefn x y) = true → R y x.
Hypothesis before :
  ∀ x y, P x → P y → (0 <? comparefn x y) = false → R x y.
Hypothesis transitive : ∀ x y z, P x → P y → P z → R x y → R y z → R x z.

Lemma sort_insert_sorted (x : A) (xs : list A) :
  P x → Forall P xs → StronglySorted R xs →
  StronglySorted R (Handlers.sort_insert comparefn x xs).
Proof.
  intros Hx HP Hsorted.
  induction Hsorted as [|y ys Hys IH Hy]; simpl.
  - by repeat constructor.
  - apply Forall_cons in HP as [Py Pys].
    destruct (0 <? comparefn x y) eqn:Hcmp.
    + constructor; [by apply IH|].
      rewrite sort_insert_Permutation. constructor; [|done].
      by apply after.
    + constructor; [by constructor|].
      assert (R x y) as Hxy by by apply before.
      constructor; [done|].
      rewrite Forall_forall in Hy, Pys. apply Forall_forall.
      intros z Hz. apply (transitive x y z); auto.
Qed.

Lemma array_sort_sorted (xs : list A) :
  Forall P xs → StronglySorted R (Handlers.array_sort comparefn xs).
Proof.
  induction xs as [|x xs IH]; intros HP; simpl; [constructor|].
  apply Forall_cons in HP as [Px Pxs].
  apply sort_insert_sorted; [done | | by apply IH].
  by rewrite array_sort_Permutation.
Qed.

(** Elements of a class [Q] the compare function puts none before
    another keep their order. *)
Lemma sort_insert_stable (Q : A → bool) (x : A) (xs : list A) :
  (∀ y, y ∈ xs → Q x = true → Q y = true →
        (0 <? comparefn x y) = false) →
  List.filter Q (Handlers.sort_insert comparefn x xs)
  = List.filter Q (x :: xs).
Proof.
  intros Hties. induction xs as [|y ys IH]; [done|].
  cbn [Handlers.sort_insert].
  destruct (0 <? comparefn x y) eqn:Hcmp; [|done].
  cbn [List.filter]. rewrite IH.
  - cbn [List.filter].
    destruct (Q x) eqn:Qx, (Q y) eqn:Qy; try done.
    rewrite (Hties y) in Hcmp; [done | apply list_elem_of_here | done ..].
  - intros z Hz. apply Hties. by apply list_elem_of_further.
Qed.

Lemma array_sort_stable (Q : A → bool) (xs : list A) :
  (∀ x y, x ∈ xs → y ∈ xs → Q x = true → Q y = true →
          (0 <? comparefn x y) = false) →
  List.filter Q (Handlers.array_sort comparefn xs) = List.filter Q xs.
Proof.
  induction xs as [|x xs IH]; intros Hties; [done|].
  cbn [Handlers.array_sort foldr].
  rewrite sort_insert_stable.
  - cbn [List.filter]. fold (Handlers.array_sort comparefn xs).
    rewrite IH; [done|].
    intros y z Hy Hz. apply Hties; by apply list_elem_of_further.
  - intros y Hy. fold (Handlers.array_sort comparefn xs) in Hy.
    rewrite array_sort_Permutation in Hy.
    apply Hties; [apply list_elem_of_here | by apply list_elem_of_further].
Qed.
End array_sort.

Lemma sortRows_reorders (rows : list TableRow) (sort : option Sort) :
  Handlers.sortRows rows sort ≡ₚ rows.
Proof. destruct sort as [s|]; [apply array_sort_Permutation | done]. Qed.

(** X20.  Sorting only reorders: the sorted rows are a permutation of the
    rows given, as many as before, and without a sort they are the rows as
    given. *)
Theorem sortRows_Permutation (rows : list TableRow) (sort : option Sort) :
  Handlers.sortRows rows sort ≡ₚ rows
  ∧ length (Handlers.sortRows rows sort) = length rows
  ∧ Handlers.sortRows rows None = rows.
Proof.
  pose proof (sortRows_reorders rows sort) as Hperm.
  split; [done|]. split; [by rewrite Hperm | done].
Qed.

Lemma compare_refl (s : string) : String.compare s s = Eq.
Proof.
  pose proof (String.compare_antisym s s) as Hanti.
  by destruct (String.compare s s).
Qed.

(** The compare function on two rows whose keys are strings. *)
Lemma compareRows_strings (column : string) (direction : Direction)
  (a b : TableRow) (sa sb : string) :
  sort_key column a = JS.Str sa → sort_key column b = JS.Str sb →
  Handlers.compareRows column direction a b
  = match String.compare sa sb, direction with
    | Eq, _ => 0
    | Lt, asc | Gt, desc => -1
    | Gt, asc | Lt, desc => 1
    end.
Proof.
  unfold sort_key. intros Ha Hb. unfold Handlers.compareRows.
  rewrite Ha, Hb. unfold Handlers.lt, Handlers.IsLessThan, String.ltb.
  rewrite (String.compare_antisym sb sa).
  by destruct (String.compare sa sb), direction.
Qed.

Lemma compareRows_same_key (column : string) (direction : Direction)
  (a b : TableRow) (s : string) :
  sort_key column a = JS.Str s → sort_key column b = JS.Str s →
  Handlers.compareRows column direction a b = 0.
Proof.
  intros Ha Hb. rewrite (compareRows_strings _ _ _ _ s s) by done.
  by rewrite compare_refl.
Qed.

(** X21.  On rows whose values in the sort column are all strings (or
    absent), the sorted rows are in the order of those strings, by code
    units, ascending or descending as asked, and the rows with the same
    string are in the order they had: the sort is stable. *)
Theorem sortRows_sorted_stable (rows : list TableRow) (column : string)
  (direction : Direction) :
  (∀ row, row ∈ rows → ∃ s, sort_key column row = JS.Str s) →
  let sorted :=
    Handlers.sortRows rows
      (Some {| sort_column := column; sort_direction := direction |}) in
  StronglySorted (in_order column direction) sorted
  ∧ ∀ s, List.filter (λ row, bool_decide (sort_key column row = JS.Str s))
           sorted
         = List.filter (λ row, bool_decide (sort_key column row = JS.Str s))
             rows.
Proof.
  intros Hstrings sorted. subst sorted. unfold Handlers.sortRows.
  cbn [sort_column sort_direction]. split.
  - apply (array_sort_sorted _ _ (λ row, ∃ s, sort_key column row = JS.Str s)).
    + intros x y [sx Hx] [sy Hy].
      rewrite (compareRows_strings _ _ _ _ sx sy) by done.
      unfold in_order, key_text, String.le, String.leb. rewrite Hx, Hy. simpl.
      rewrite (String.compare_antisym sy sx).
      by destruct (String.compare sx sy), direction.
    + intros x y [sx Hx] [sy Hy].
      rewrite (compareRows_strings _ _ _ _ sx sy) by done.
      unfold in_order, key_text, String.le, String.leb. rewrite Hx, Hy. simpl.
      rewrite (String.compare_antisym sy sx).
      by destruct (String.compare sx sy), direction.
    + intros x y z _ _ _. unfold in_order.
      destruct direction; intros Hxy Hyz; by etrans.
    + apply Forall_forall. intros row Hrow. by apply Hstrings.
  - intros s. apply array_sort_stable.
    intros x y _ _ Hx Hy. apply bool_decide_eq_true in Hx, Hy.
    by rewrite (compareRows_same_key _ _ _ _ s).
Qed.

Lemma sortRows_sorted_stable_witness :
  let row := λ id name,
    {| row_id := id; row_fields := {[ "name" := JS.Str name ]} |} in
  let rows := [row "1" "bob"; row "2" "al"; row "3" "bob"; row "4" "Zed"] in
  Handlers.sortRows rows
    (Some {| sort_column := "name"; sort_direction := asc |})
  = [row "4" "Zed"; row "2" "al"; row "1" "bob"; row "3" "bob"]
  ∧ StronglySorted (in_order "name" asc)
      (Handlers.sortRows rows
         (Some {| sort_column := "name"; sort_direction := asc |})).
Proof.
  intros row rows.
  split; [reflexivity|].
  apply (sortRows_sorted_stable rows "name" asc).
  intros r Hr. subst rows.
  repeat (apply elem_of_cons in Hr as [-> | Hr]);
    [by eexists .. | by apply elem_of_nil in Hr].
Defined.

(** ** Select all *)

Lemma slice_sublist {A : Type} (start stop : Z) (xs : list A) :
  slice start stop xs `sublist_of` xs.
Proof.
  unfold slice. etrans; [apply sublist_take | apply sublist_drop].
Qed.

(** X22.  Ticking the select-all box selects the identities of the rows of
    the current page, in page order: each belongs to a row of the store that
    passes the search and the filters, and for a page index and a page size
    that are not negative there are at most [pageSize] of them.  Clearing the
    box empties the selection. *)
Theorem handleSelectAllRows_page (clock : Clock) (state : TableState) :
  let ticked := run (Handlers.handleSelectAllRows true clock state) state in
  let cleared := run (Handlers.handleSelectAllRows false clock state) state in
  selectedRows ticked = row_id <$> Handlers.pagedRows state
  ∧ (∀ id, id ∈ selectedRows ticked →
           ∃ row, row ∈ TableManager.filterRows (rows state) (columns state)
                          (search state) (filters state)
                  ∧ row_id row = id)
  ∧ (0 ≤ page state → 0 ≤ pageSize state →
     Z.of_nat (length (selectedRows ticked)) ≤ pageSize state)
  ∧ selectedRows cleared = []
  ∧ rows ticked = rows state.
Proof.
  intros ticked cleared. subst ticked cleared.
  unfold Handlers.handleSelectAllRows, run. simpl.
  split; [done|]. split; [|split; [|done]].
  - intros id (row & -> & Hrow)%list_elem_of_fmap. exists row. split; [|done].
    unfold Handlers.pagedRows, TableManager.pagedRows in Hrow.
    destruct (length (Handlers.sortedRows state) =? 0)%nat;
      [by apply elem_of_nil in Hrow|].
    eapply elem_of_sublist in Hrow; [|apply slice_sublist].
    unfold Handlers.sortedRows in Hrow.
    destruct (length (Handlers.filteredRows state) =? 0)%nat;
      [by apply elem_of_nil in Hrow|].
    rewrite sortRows_reorders in Hrow.
    unfold Handlers.filteredRows in Hrow.
    by destruct (length (rows state) =? 0)%nat;
      [apply elem_of_nil in Hrow|].
  - intros Hpage Hsize. rewrite length_map.
    unfold Handlers.pagedRows.
    rewrite pagedRows_window by done. rewrite length_take. lia.
Qed.

(** ** Import *)

Lemma imported_cell (fresh : string) (record : gmap string string)
  (key : string) :
  let row := {| row_id := fresh; row_fields := JS.Str <$> record |} in
  (∃ s, get row key = JS.Str s) ∨ get row key = JS.Undefined.
Proof.
  unfold get. cbn [row_id row_fields].
  destruct (String.eqb key "id"); [left; by eexists|].
  rewrite lookup_fmap. destruct (record !! key); [left; by eexists | by right].
Qed.

(** X23.  An import replaces the rows wholesale, one row per record of the
    file, in order, each under the identity drawn for it and reading the
    record's text under every key of the record; selection, page, search,
    filters and columns stay as they were.  Every cell of an imported row is
    a string or absent, so on the imported rows the export of the filtered
    rows is exactly what [filterRows] gives. *)
Theorem handleImportCSV_replaces_rows (fileName : string)
  (data : list (gmap string string)) (uuidv4 : nat → string) (clock : Clock)
  (state : TableState) :
  let state' :=
    run (Handlers.handleImportCSV fileName data uuidv4 clock) state in
  length (rows state') = length data
  ∧ (∀ i record,
       data !! i = Some record →
       ∃ row, rows state' !! i = Some row ∧ row_id row = uuidv4 i
              ∧ ∀ key text, key ≠ "id" → record !! key = Some text →
                            get row key = JS.Str text)
  ∧ (selectedRows state', page state', search state', filters state',
     columns state')
    = (selectedRows state, page state, search state, filters state,
       columns state)
  ∧ (∀ row key, row ∈ rows state' →
                (∃ s, get row key = JS.Str s) ∨ get row key = JS.Undefined)
  ∧ (AdvancedExport.getExportData AdvancedExport.Filtered state').1
    = TableManager.filterRows (rows state') (columns state') (search state')
        (filters state').
Proof.
  intros state'.
  assert (state'
          = logActivity clock
              {| pl_action := Import; pl_rowId := None;
                 pl_details :=
                   "Imported "
                   +:+ JS.digits
                         (Z.of_nat
                            (length
                               (imap
                                  (λ i row,
                                     {| row_id := uuidv4 i;
                                        row_fields := JS.Str <$> row |})
                                  data)))
                   +:+ " rows from " +:+ fileName |}
              (setRows
                 (imap (λ i row, {| row_id := uuidv4 i;
                                    row_fields := JS.Str <$> row |}) data)
                 state)) as Hstate by reflexivity.
  assert (rows state'
          = imap (λ i row, {| row_id := uuidv4 i;
                              row_fields := JS.Str <$> row |}) data) as Hrows.
  { rewrite Hstate. by rewrite logActivity_rows. }
  assert (∀ row key, row ∈ rows state' →
            (∃ s, get row key = JS.Str s) ∨ get row key = JS.Undefined)
    as Hcells.
  { intros row key. rewrite Hrows.
    intros (i & record & -> & _)%elem_of_lookup_imap.
    apply imported_cell. }
  split; [by rewrite Hrows, length_imap|]. split; [|split; [|split; [done|]]].
  - intros i record Hrecord. eexists. rewrite Hrows.
    split; [by rewrite list_lookup_imap, Hrecord|]. split; [done|].
    intros key text Hkey Htext. unfold get. cbn [row_id row_fields].
    apply String.eqb_neq in Hkey. by rewrite Hkey, lookup_fmap, Htext.
  - rewrite Hstate, logActivity_with. reflexivity.
  - apply export_filtered_agrees. intros row filter Hrow _ _.
    destruct (Hcells row (f_column filter) Hrow) as [[s ->] | ->]; done.
Qed.

(** ** The save handler *)

(** X24.  With a blank name the save handler dispatches nothing.  Otherwise
    it appends one view, named by the trimmed name and holding the live
    columns, filters, sort and search, and logs it, leaving the live state
    as it is; after any run of query mutations, loading that view, if its
    identity was not borne by an earlier one, gives back the columns,
    filters, sort and search the state had when the handler ran. *)
Theorem handleSaveCurrentView_captures (viewName : string)
  (clock1 clock2 : Clock) (state : TableState) :
  let dispatched :=
    SavedViews.handleSaveCurrentView viewName clock1 clock2 state in
  let saved := run dispatched state in
  let payload :=
    {| vp_name := JS.trim viewName; vp_columns := columns state;
       vp_filters := filters state; vp_sort := sort state;
       vp_search := search state |} in
  (JS.trim viewName = "" → dispatched = [])
  ∧ (JS.trim viewName ≠ "" →
     savedViews saved = savedViews state ++ [new_view clock1 payload]
     ∧ (columns saved, filters saved, sort saved, search saved, rows saved,
        selectedRows saved, page saved)
       = (columns state, filters state, sort state, search state, rows state,
          selectedRows state, page state)
     ∧ ∀ mutations : list (Clock * Action),
         Forall (λ d, query_mutation d.2 = true) mutations →
         (∀ v, v ∈ savedViews state → view_id v ≠ now_toString clock1) →
         let restored :=
           loadView (now_toString clock1) (run mutations saved) in
         (columns restored, filters restored, sort restored, search restored)
         = (columns state, filters state, sort state, search state)).
Proof.
  intros dispatched saved payload. subst dispatched saved.
  unfold SavedViews.handleSaveCurrentView. split.
  - intros Hblank. by rewrite Hblank.
  - intros Hname. apply String.eqb_neq in Hname. rewrite Hname.
    fold payload.
    set (logp := {| pl_action := Create; pl_rowId := None;
                    pl_details := "Saved view: " +:+ viewName |}).
    assert (run [(clock1, SaveView payload); (clock2, LogActivity logp)] state
            = logActivity clock2 logp (saveView clock1 payload state)) as ->
      by reflexivity.
    rewrite logActivity_with.
    split; [done|]. split; [done|].
    intros mutations Hmut Hfresh.
    rewrite <- logActivity_with.
    change (run mutations
              (logActivity clock2 logp (saveView clock1 payload state)))
      with (run ((clock2, LogActivity logp) :: mutations)
              (saveView clock1 payload state)).
    destruct (loadView_found (now_toString clock1) (new_view clock1 payload)
                (run ((clock2, LogActivity logp) :: mutations)
                   (saveView clock1 payload state)))
      as (-> & -> & -> & -> & _); [|done].
    apply loadView_saved; [|done]. constructor; [done|].
    eapply Forall_impl; [exact Hmut|].
    intros d. apply query_mutation_keeps_views.
Qed.

Lemma handleSaveCurrentView_captures_witness :
  let clock := {| now := 1700000000000; iso := "2023-11-14T22:13:20.000Z" |} in
  let state := with_search "jo" initialState in
  search
    (loadView "1700000000000"
       (run [(clock, SetSearch "mary")]
          (run (SavedViews.handleSaveCurrentView " Team " clock clock state)
             state)))
  = "jo".
Proof.
  intros clock state.
  destruct (handleSaveCurrentView_captures " Team " clock clock state)
    as [_ Hsaved].
  destruct (Hsaved ltac:(discriminate)) as (_ & _ & Hround).
  assert (Forall (λ d : Clock * Action, query_mutation d.2 = true)
            [(clock, SetSearch "mary")]) as Hmut by (by repeat constructor).
  assert (∀ v, v ∈ savedViews state → view_id v ≠ now_toString clock)
    as Hfresh.
  { intros v Hv. simpl in Hv. by apply elem_of_nil in Hv. }
  exact (f_equal snd (Hround [(clock, SetSearch "mary")] Hmut Hfresh)).
Defined.

(** ** The filter dialog *)

(** X25.  A draft filter whose value is the empty string is never added,
    whatever its operator: nothing is dispatched and the draft is kept,
    although for [isEmpty] and [isNotEmpty] on a chosen column the Add Filter
    button is enabled.  A draft with a column, an operator and any other
    value is appended to the filters as it stands, and the draft is reset. *)
Theorem handleAddFilter_blank_value (draft : Handlers.DraftFilter)
  (clock : Clock) :
  (Handlers.df_value draft = Some (JS.Str "") →
   Handlers.handleAddFilter draft clock = (draft, []))
  ∧ (∀ column,
       Handlers.df_column draft = Some column → column ≠ "" →
       Handlers.df_operator draft = Some isEmpty
       ∨ Handlers.df_operator draft = Some isNotEmpty →
       Handlers.addFilterDisabled draft = false)
  ∧ (∀ column operator state,
       Handlers.df_column draft = Some column → column ≠ "" →
       Handlers.df_operator draft = Some operator →
       Handlers.df_value draft ≠ Some (JS.Str "") →
       (Handlers.handleAddFilter draft clock).1 = Handlers.blankDraft
       ∧ filters (run (Handlers.handleAddFilter draft clock).2 state)
         = filters state
           ++ [ {| f_column := column; f_operator := operator;
                   f_value := default JS.Undefined (Handlers.df_value draft);
                   f_value2 := Handlers.df_value2 draft |} ]).
Proof.
  split; [|split].
  - intros Hvalue. unfold Handlers.handleAddFilter. rewrite Hvalue.
    destruct (Handlers.df_column draft), (Handlers.df_operator draft);
      try done.
    by rewrite bool_decide_eq_true_2, andb_false_r.
  - intros column Hcolumn Hne Hop. unfold Handlers.addFilterDisabled.
    rewrite Hcolumn. simpl. apply String.eqb_neq in Hne. rewrite Hne. simpl.
    by destruct Hop as [-> | ->].
  - intros column operator state Hcolumn Hne Hop Hvalue.
    unfold Handlers.handleAddFilter. rewrite Hcolumn, Hop.
    apply String.eqb_neq in Hne. rewrite Hne.
    by rewrite bool_decide_eq_false_2.
Qed.

Lemma handleAddFilter_blank_value_witness :
  let clock := {| now := 1700000000000; iso := "2023-11-14T22:13:20.000Z" |} in
  let draft :=
    {| Handlers.df_column := Some "age";
       Handlers.df_operator := Some isEmpty;
       Handlers.df_value := Some (JS.Str "");
       Handlers.df_value2 := None |} in
  Handlers.handleAddFilter draft clock = (draft, [])
  ∧ Handlers.addFilterDisabled draft = false.
Proof.
  intros clock draft.
  destruct (handleAddFilter_blank_value draft clock) as (Hkept & Henabled & _).
  split.
  - apply Hkept. reflexivity.
  - apply (Henabled "age"); [reflexivity | discriminate | by left].
Defined.

(** ** Reordering the columns *)

Lemma indexOf_found (pre post : list string) (x : string) :
  x ∉ pre → Handlers.indexOf (pre ++ x :: post) x = Z.of_nat (length pre).
Proof.
  intros Hpre. induction pre as [|y pre IH]; simpl.
  - by rewrite String.eqb_refl.
  - apply not_elem_of_cons in Hpre as [Hne Hpre].
    rewrite (proj2 (String.eqb_neq y x)) by done.
    rewrite IH by done.
    rewrite (proj2 (Z.ltb_ge _ 0)) by lia. lia.
Qed.

Lemma splice_in_at {A : Type} (pre post : list A) (x : A) :
  Handlers.splice_in (Z.of_nat (length pre)) x (pre ++ post)
  = pre ++ x :: post.
Proof.
  unfold Handlers.splice_in.
  rewrite (proj2 (Z.ltb_ge _ 0)) by lia.
  rewrite Z.min_l by (rewrite length_app; lia).
  by rewrite Nat2Z.id, take_app_length, drop_app_length.
Qed.

Lemma splice1_at {A : Type} (pre post : list A) (x : A) :
  splice1 (Z.of_nat (length pre)) (pre ++ x :: post) = pre ++ post.
Proof. rewrite splice1_in_range. apply delete_middle. Qed.

Lemma perm_move {A : Type} (x : A) (a b c : list A) :
  a ++ x :: b ++ c ≡ₚ a ++ b ++ x :: c.
Proof. f_equiv. apply Permutation_middle. Qed.

(** The order after a drop: the dragged identity taken out, then put back at
    the index the target had. *)
Lemma drop_order (dragged targetId : string) (columnOrder : list string) :
  NoDup columnOrder → dragged ∈ columnOrder → targetId ∈ columnOrder →
  dragged ≠ targetId →
  ∃ i,
    columnOrder !! i = Some targetId
    ∧ Handlers.splice_in (Handlers.indexOf columnOrder targetId) dragged
        (splice1 (Handlers.indexOf columnOrder dragged) columnOrder) !! i
      = Some dragged
    ∧ Handlers.splice_in (Handlers.indexOf columnOrder targetId) dragged
        (splice1 (Handlers.indexOf columnOrder dragged) columnOrder)
      ≡ₚ columnOrder.
Proof.
  intros Hnodup Hdragged Htarget Hne.
  apply list_elem_of_split_l in Hdragged as (pre & post & -> & Hpre).
  rewrite indexOf_found, splice1_at by done.
  apply elem_of_app in Htarget as [Hin | Hin].
  - apply list_elem_of_split_l in Hin as (p1 & p2 & -> & Hp1).
    exists (length p1).
    rewrite <- !app_assoc, <- !app_comm_cons.
    rewrite indexOf_found, splice_in_at by done.
    split; [by apply list_lookup_middle|].
    split; [by apply list_lookup_middle|].
    apply (perm_move dragged p1 (targetId :: p2) post).
  - apply elem_of_cons in Hin as [Heq | Hin]; [congruence|].
    apply list_elem_of_split_l in Hin as (q1 & q2 & -> & Hq1).
    assert (targetId ∉ pre ++ dragged :: q1) as Hbefore.
    { apply NoDup_app in Hnodup as (_ & Hdisjoint & Hrest).
      intros [Hp | Hq]%elem_of_app.
      - apply (Hdisjoint targetId Hp).
        apply list_elem_of_further, elem_of_app. right. apply list_elem_of_here.
      - apply elem_of_cons in Hq as [Heq | Hq]; [congruence | done]. }
    exists (length (pre ++ dragged :: q1)).
    replace (pre ++ dragged :: q1 ++ targetId :: q2)
      with ((pre ++ dragged :: q1) ++ targetId :: q2)
      by (by rewrite <- app_assoc).
    rewrite indexOf_found by done.
    split; [by apply list_lookup_middle|].
    replace (Z.of_nat (length (pre ++ dragged :: q1)))
      with (Z.of_nat (length (pre ++ q1 ++ [targetId])))
      by (rewrite ?length_app; simpl; rewrite ?length_app; simpl; lia).
    replace (pre ++ q1 ++ targetId :: q2)
      with ((pre ++ q1 ++ [targetId]) ++ q2)
      by (by rewrite <- !app_assoc).
    rewrite splice_in_at.
    split.
    + replace (length (pre ++ dragged :: q1))
        with (length (pre ++ q1 ++ [targetId]))
        by (rewrite ?length_app; simpl; rewrite ?length_app; simpl; lia).
      by apply list_lookup_middle.
    + symmetry. rewrite <- !app_assoc. simpl.
      etrans; [apply perm_move|]. do 2 f_equiv. apply Permutation_swap.
Qed.

Lemma omap_find_ids (cols : list TableColumn) (order : list string) :
  (∀ id, id ∈ order → ∃ c, c ∈ cols ∧ col_id c = id) →
  col_id
  <$> omap (λ id, List.find (λ c, String.eqb (col_id c) id) cols) order
  = order.
Proof.
  intros Hknown. induction order as [|id order IH]; [done|].
  cbn [omap list_omap].
  destruct (List.find (λ c, String.eqb (col_id c) id) cols) as [c|] eqn:Hfind.
  - apply find_some in Hfind as [_ Hid]. apply String.eqb_eq in Hid.
    cbn. rewrite Hid. f_equal. apply IH.
    intros id' Hid'. by apply Hknown, list_elem_of_further.
  - destruct (Hknown id) as (c & Hc & Hid); [apply list_elem_of_here|].
    eapply find_none in Hfind; [|by apply list_elem_of_In].
    simpl in Hfind. apply String.eqb_neq in Hfind. done.
Qed.

(** X26.  Dropping the dragged column header on another one, both in a
    column order without repetition, rearranges that order and loses nothing:
    the dragged identity takes the index the target had.  The columns
    dispatched follow the new order, identity by identity, when every
    identity of the order is that of a column.  Nothing happens without a
    dragged column, or when it is dropped on itself. *)
Theorem handleDrop_moves_column (dragged targetId : string)
  (columnOrder : list string) (clock : Clock) (state : TableState) :
  (NoDup columnOrder → dragged ∈ columnOrder → targetId ∈ columnOrder →
   dragged ≠ "" → dragged ≠ targetId →
   let result :=
     Handlers.handleDrop (Some dragged) targetId columnOrder clock state in
   result.1 ≡ₚ columnOrder
   ∧ (∀ i, columnOrder !! i = Some targetId → result.1 !! i = Some dragged)
   ∧ ((∀ id, id ∈ columnOrder → ∃ c, c ∈ columns state ∧ col_id c = id) →
      col_id <$> columns (run result.2 state) = result.1))
  ∧ Handlers.handleDrop None targetId columnOrder clock state
    = (columnOrder, [])
  ∧ Handlers.handleDrop (Some targetId) targetId columnOrder clock state
    = (columnOrder, []).
Proof.
  split; [|split].
  - intros Hnodup Hdragged Htarget Hne Hdiff result. subst result.
    unfold Handlers.handleDrop.
    apply String.eqb_neq in Hne. rewrite Hne.
    rewrite (proj2 (String.eqb_neq dragged targetId)) by done.
    cbn [orb fst snd].
    destruct (drop_order dragged targetId columnOrder)
      as (i & Hi & Hat & Hperm); [done ..|].
    split; [done|]. split.
    + intros j Hj. by rewrite (NoDup_lookup _ _ _ _ Hnodup Hj Hi).
    + intros Hknown. unfold run. simpl. apply omap_find_ids.
      intros id Hid. apply Hknown. by rewrite <- Hperm.
  - reflexivity.
  - unfold Handlers.handleDrop. rewrite String.eqb_refl.
    by rewrite orb_true_r.
Qed.

Lemma handleDrop_moves_column_witness :
  let clock := {| now := 1700000000000; iso := "2023-11-14T22:13:20.000Z" |} in
  let result :=
    Handlers.handleDrop (Some "role") "email" ["name"; "email"; "age"; "role"]
      clock initialState in
  result.1 ≡ₚ ["name"; "email"; "age"; "role"]
  ∧ result.1 !! 1%nat = Some "role"
  ∧ col_id <$> columns (run result.2 initialState) = result.1.
Proof.
  intros clock result.
  destruct (proj1 (handleDrop_moves_column "role" "email"
                     ["name"; "email"; "age"; "role"] clock initialState))
    as (Hperm & Hat & Hcols).
  - apply (bool_decide_unpack _). vm_compute. reflexivity.
  - apply (bool_decide_unpack _). vm_compute. reflexivity.
  - apply (bool_decide_unpack _). vm_compute. reflexivity.
  - discriminate.
  - discriminate.
  - split; [exact Hperm|]. split; [by apply Hat|].
    apply Hcols. intros id Hid.
    repeat (apply elem_of_cons in Hid as [-> | Hid]);
      [eexists; split .. | by apply elem_of_nil in Hid].
    + apply list_elem_of_here.
    + reflexivity.
    + apply list_elem_of_further, list_elem_of_here.
    + reflexivity.
    + do 2 apply list_elem_of_further. apply list_elem_of_here.
    + reflexivity.
    + do 3 apply list_elem_of_further. apply list_elem_of_here.
    + reflexivity.
Defined.

(** ** Text filters *)

Lemma append_assoc (s1 s2 s3 : string) :
  (s1 +:+ s2) +:+ s3 = s1 +:+ s2 +:+ s3.
Proof.
  induction s1 as [|c s1 IH]; [done|].
  rewrite !append_cons. by rewrite IH.
Qed.

Lemma append_empty_r (s : string) : s +:+ "" = s.
Proof.
  induction s as [|c s IH]; [done|]. rewrite append_cons. by rewrite IH.
Qed.

Lemma rev_app_append (s1 s2 : string) :
  String.rev_app s1 s2 = String.rev s1 +:+ s2.
Proof.
  unfold String.rev. revert s2.
  induction s1 as [|c s1 IH]; intros s2; [done|]. simpl.
  rewrite (IH (String c s2)), (IH (String c "")).
  by rewrite append_assoc.
Qed.

Lemma rev_cons (c : ascii) (s : string) :
  String.rev (String c s) = String.rev s +:+ String c "".
Proof. unfold String.rev at 1. simpl. apply rev_app_append. Qed.

Lemma rev_append (s1 s2 : string) :
  String.rev (s1 +:+ s2) = String.rev s2 +:+ String.rev s1.
Proof.
  induction s1 as [|c s1 IH].
  - by rewrite append_empty_l, append_empty_r.
  - rewrite append_cons, !rev_cons, IH. by rewrite append_assoc.
Qed.

Lemma rev_rev (s : string) : String.rev (String.rev s) = s.
Proof.
  induction s as [|c s IH]; [done|].
  rewrite rev_cons, rev_append, IH. done.
Qed.

Lemma endsWith_spec (s search : string) :
  JS.endsWith s search = true ↔ ∃ pre, s = pre +:+ search.
Proof.
  unfold JS.endsWith. rewrite startsWith_spec. split.
  - intros [post Hpost]. exists (String.rev post).
    rewrite <- (rev_rev s), Hpost, rev_append. by rewrite rev_rev.
  - intros [pre ->]. exists (String.rev pre). apply rev_append.
Qed.

Lemma lower_char_twice (c : ascii) :
  JS.lower_char (JS.lower_char c) = JS.lower_char c.
Proof. by destruct c as [[] [] [] [] [] [] [] []]. Qed.

Lemma toLowerCase_twice (s : string) :
  JS.toLowerCase (JS.toLowerCase s) = JS.toLowerCase s.
Proof.
  induction s as [|c s IH]; [done|]. simpl.
  by rewrite lower_char_twice, IH.
Qed.

Lemma text_filter_passes (row : TableRow) (filter : ColumnFilter) :
  TableManager.filter_passes row filter
  = match f_operator filter with
    | equals => String.eqb (cell_lower row filter) (filter_lower filter)
    | contains => JS.includes (cell_lower row filter) (filter_lower filter)
    | startsWith =>
        JS.startsWith (cell_lower row filter) (filter_lower filter)
    | endsWith => JS.endsWith (cell_lower row filter) (filter_lower filter)
    | _ => TableManager.filter_passes row filter
    end.
Proof. unfold TableManager.filter_passes. by destruct (f_operator filter). Qed.

(** X27.  The four text operators compare the lower-cased text of the cell
    with the lower-cased text of the filter value: [equals] holds when the
    two are equal, [startsWith] when the second begins the first, [endsWith]
    when it ends it, [contains] when it occurs in it.  So on the same value
    what [equals] keeps, [startsWith] and [endsWith] keep, and what either of
    these keeps, [contains] keeps; and a value gives the same rows as its
    lower-cased form. *)
Theorem text_filters_compare_lower_case (row : TableRow)
  (filter : ColumnFilter) :
  let passes op := TableManager.filter_passes row (with_operator op filter) in
  let cell := cell_lower row filter in
  let text := filter_lower filter in
  (passes equals = true ↔ cell = text)
  ∧ (passes startsWith = true ↔ ∃ post, cell = text +:+ post)
  ∧ (passes endsWith = true ↔ ∃ pre, cell = pre +:+ text)
  ∧ (passes contains = true ↔ is_substring text cell)
  ∧ (passes equals = true →
     passes startsWith = true ∧ passes endsWith = true)
  ∧ (passes startsWith = true ∨ passes endsWith = true →
     passes contains = true)
  ∧ (∀ op s,
       op = equals ∨ op = startsWith ∨ op = endsWith ∨ op = contains →
       f_value filter = JS.Str s →
       TableManager.filter_passes row
         (with_operator op (with_value (JS.Str (JS.toLowerCase s)) filter))
       = passes op).
Proof.
  intros passes cell text. subst passes cell text. cbv beta.
  assert (TableManager.filter_passes row (with_operator equals filter) = true
          ↔ cell_lower row filter = filter_lower filter) as Heq.
  { rewrite text_filter_passes. apply String.eqb_eq. }
  assert (TableManager.filter_passes row (with_operator startsWith filter)
          = true
          ↔ ∃ post, cell_lower row filter = filter_lower filter +:+ post)
    as Hstarts.
  { rewrite text_filter_passes. apply startsWith_spec. }
  assert (TableManager.filter_passes row (with_operator endsWith filter)
          = true
          ↔ ∃ pre, cell_lower row filter = pre +:+ filter_lower filter)
    as Hends.
  { rewrite text_filter_passes. apply endsWith_spec. }
  assert (TableManager.filter_passes row (with_operator contains filter)
          = true
          ↔ is_substring (filter_lower filter) (cell_lower row filter))
    as Hcontains.
  { rewrite text_filter_passes. apply includes_spec. }
  split; [done|]. split; [done|]. split; [done|]. split; [done|].
  split; [|split].
  - rewrite Heq, Hstarts, Hends. intros ->. split.
    + exists "". by rewrite append_empty_r.
    + by exists "".
  - rewrite Hstarts, Hends, Hcontains.
    intros [[post ->] | [pre ->]].
    + by exists "", post.
    + exists pre, "". by rewrite append_empty_r.
  - intros op s Hop Hvalue.
    rewrite (text_filter_passes row (with_operator op filter)).
    rewrite (text_filter_passes row
               (with_operator op
                  (with_value (JS.Str (JS.toLowerCase s)) filter))).
    unfold cell_lower, filter_lower.
    cbn [with_operator with_value f_column f_operator f_value JS.ToString].
    rewrite Hvalue. cbn [JS.ToString]. rewrite toLowerCase_twice.
    by destruct Hop as [-> | [-> | [-> | ->]]].
Qed.

Lemma text_filters_compare_lower_case_witness :
  let john :=
    {| row_id := "r1"; row_fields := {[ "name" := JS.Str "John" ]} |} in
  let filter :=
    {| f_column := "name"; f_operator := equals;
       f_value := JS.Str "JOHN"; f_value2 := None |} in
  TableManager.filter_passes john (with_operator startsWith filter) = true
  ∧ TableManager.filter_passes john (with_operator contains filter) = true.
Proof.
  intros john filter.
  destruct (text_filters_compare_lower_case john filter)
    as (_ & _ & _ & _ & Heq & Hcontains & _).
  destruct (Heq ltac:(reflexivity)) as [Hstarts _].
  split; [exact Hstarts|]. apply Hcontains. by left.
Defined.

(** ** Bounds of the numeric filters *)

Lemma IsLessThan_same (x : JS.number) :
  x ≠ JS.NaN → JS.IsLessThan x x = Some false.
Proof.
  destruct x as [|neg|m e]; [done| |]; intros _; simpl.
  - by destruct neg.
  - unfold JS.compare_finite. by rewrite Z.compare_refl.
Qed.

Lemma IsLessThan_defined (x y : JS.number) :
  x ≠ JS.NaN → y ≠ JS.NaN → ∃ b, JS.IsLessThan x y = Some b.
Proof. destruct x, y; try done; intros _ _; by eexists. Qed.

(** X28.  Where the cell and the bounds coerce to numbers, none of them
    [NaN]: [between] keeps exactly the rows that [lessThan] the primary value
    and [greaterThan] the secondary value both reject, so it includes both
    bounds; a cell equal to the bound is rejected by [greaterThan] and by
    [lessThan]. *)
Theorem numeric_filters_bounds (row : TableRow) (filter : ColumnFilter) :
  let passes op := TableManager.filter_passes row (with_operator op filter) in
  let above_secondary :=
    TableManager.filter_passes row
      (with_operator greaterThan
         (with_value (default JS.Undefined (f_value2 filter)) filter)) in
  row_number row filter ≠ JS.NaN →
  primary_number filter ≠ JS.NaN →
  (secondary_number filter ≠ JS.NaN →
   passes between = negb (passes lessThan) && negb above_secondary)
  ∧ (row_number row filter = primary_number filter →
     passes greaterThan = false ∧ passes lessThan = false
     ∧ (row_number row filter = secondary_number filter →
        passes between = true)).
Proof.
  intros passes above_secondary Hv Ha.
  subst passes above_secondary. cbv beta.
  unfold TableManager.filter_passes.
  cbn [with_operator with_value f_operator f_column f_value f_value2].
  fold (row_number row filter) (primary_number filter)
    (secondary_number filter).
  unfold JS.ge, JS.le, JS.lt, JS.gt. split.
  - intros Hb.
    destruct (IsLessThan_defined _ _ Hv Ha) as [b1 ->].
    destruct (IsLessThan_defined _ _ Hb Hv) as [b2 ->]. done.
  - intros Heq. rewrite <- Heq. rewrite IsLessThan_same by done.
    split; [done|]. split; [done|].
    intros Heq2. rewrite <- Heq2. by rewrite IsLessThan_same.
Qed.

Lemma numeric_filters_bounds_witness :
  let row18 :=
    {| row_id := "r1"; row_fields := {[ "age" := JS.Str "18" ]} |} in
  let filter :=
    {| f_column := "age"; f_operator := between;
       f_value := JS.Num (JS.of_Z 18); f_value2 := Some (JS.Str "18.0") |} in
  TableManager.filter_passes row18 (with_operator greaterThan filter) = false
  ∧ TableManager.filter_passes row18 (with_operator between filter)
    = negb (TableManager.filter_passes row18 (with_operator lessThan filter))
      && negb
           (TableManager.filter_passes row18
              (with_operator greaterThan
                 (with_value (default JS.Undefined (f_value2 filter))
                    filter))).
Proof.
  intros row18 filter.
  destruct (numeric_filters_bounds row18 filter)
    as [Hbetween Hbound]; [discriminate | discriminate |].
  split.
  - apply Hbound. reflexivity.
  - apply Hbetween. discriminate.
Defined.

(** ** The export button *)

(** X29.  Whenever the Export button is enabled, the file name is not blank
    and the export goes ahead: a click on an enabled button always writes a
    file, in every format. *)
Theorem exportDisabled_guards_handleExport
  (scope : AdvancedExport.ExportScope) (fileName : string)
  (state : TableState) :
  Handlers.exportDisabled scope fileName state = false →
  JS.trim fileName ≠ ""
  ∧ ∀ format includeHeaders includeMetadata localeNow,
      ∃ file,
        Handlers.handleExport format scope fileName includeHeaders
          includeMetadata localeNow state = Some file.
Proof.
  unfold Handlers.exportDisabled. intros Henabled.
  apply orb_false_iff in Henabled as [Hcan Hname].
  apply negb_false_iff in Hcan. apply String.eqb_neq in Hname.
  split; [done|]. intros format includeHeaders includeMetadata localeNow.
  unfold Handlers.handleExport.
  destruct (AdvancedExport.getExportData scope state) as [rs cs].
  simpl in Hcan. destruct rs as [|r rs]; [done|].
  cbn [length Nat.eqb]. destruct format; by eexists.
Qed.

Lemma exportDisabled_guards_handleExport_witness :
  let john :=
    {| row_id := "r1"; row_fields := {[ "name" := JS.Str "John" ]} |} in
  let state := with_rows [john] initialState in
  ∃ file,
    Handlers.handleExport Handlers.json AdvancedExport.All "table_export"
      true false "11/14/2023, 10:13:20 PM" state = Some file.
Proof.
  intros john state.
  destruct (exportDisabled_guards_handleExport AdvancedExport.All
              "table_export" state) as [_ Hfile]; [reflexivity|].
  apply Hfile.
Defined.
